(** * Manifests asset of the installer: a shallow embedding

    This development embeds [pkg/asset/manifests/operators.go] and states
    the properties of its template helpers, of [Manifests.Generate] and of
    [Manifests.Load].

    Conventions of the embedding:
    - a Go [string] and a Go [[]byte] are both sequences of bytes; both are
      [string] here (a list of 8-bit [ascii]), so [string(b)] and
      [[]byte(s)] are the identity;
    - a Go [int] is a [Z] in the 64-bit two's complement range, arithmetic
      wraps ([wrapInt]);
    - a Go function that may panic returns an [Outcome];
    - a Go [error] result is a [result] ([Ok] / [Err]) or an
      [option Error] when it is the only result;
    - the packages the file imports from outside the repository
      ([text/template], [github.com/ghodss/yaml]) are parameters of the
      functions that call them (Section [Operators]). *)

From Stdlib Require Import ZArith Ascii String List Permutation Sorted DecimalString.
From Stdlib Require DecimalPos DecimalZ.
From stdpp Require Import base tactics option list sorting strings gmap fin_maps.

Local Open Scope Z_scope.

(** ** Errors, panics and outcomes *)

(** [errors.New] / library errors, and [errors.Wrap(cause, msg)]. *)
Inductive Error : Type :=
| ErrNew (msg : string)
| ErrWrap (cause : Error) (msg : string).

(** The value carried by a Go panic: a runtime error (index out of range,
    negative length) or an [error] value passed to [panic]. *)
Inductive PanicValue : Type :=
| RuntimeError (msg : string)
| PanicError (e : Error).

Inductive result (A : Type) : Type :=
| Ok (a : A)
| Err (e : Error).
Arguments Ok {A} a.
Arguments Err {A} e.

(** The outcome of running a Go function: it returns, or it panics and
    unwinds the goroutine (nobody in this package recovers). *)
Inductive Outcome (A : Type) : Type :=
| Ret (a : A)
| Panic (v : PanicValue).
Arguments Ret {A} a.
Arguments Panic {A} v.

Definition bindO {A B} (o : Outcome A) (k : A → Outcome B) : Outcome B :=
  match o with
  | Ret a => k a
  | Panic v => Panic v
  end.

Notation "x ←! o ; k" := (bindO o (λ x, k))
  (at level 100, o at next level, right associativity,
   format "x  ←!  o ;  '/' k").

Definition returns {A} (o : Outcome A) : Prop := ∃ a, o = Ret a.

(** ** Go's [int] *)

Definition wrapInt (z : Z) : Z := (z + 2 ^ 63) mod 2 ^ 64 - 2 ^ 63.
Definition inInt (z : Z) : Prop := - 2 ^ 63 ≤ z < 2 ^ 63.

(** ** Package [strings] *)

Definition newlineChar : ascii := "010"%char.
Definition nl : string := String newlineChar "".

Fixpoint repeatString (s : string) (count : nat) : string :=
  match count with
  | O => ""
  | S k => s +:+ repeatString s k
  end.

(** [strings.Repeat(s, count)]: panics when [count] is negative. *)
Definition strings_Repeat (s : string) (count : Z) : Outcome string :=
  if count <? 0 then Panic (RuntimeError "strings: negative Repeat count")
  else Ret (repeatString s (Z.to_nat count)).

(** The scan of [strings.Replace(s, old, new, -1)] for a non-empty [old]:
    left to right, every non-overlapping occurrence of [old] is replaced;
    [skip] counts the bytes of the occurrence just replaced that are still
    to be dropped from the input. *)
Fixpoint replaceFrom (old new : string) (skip : nat) (s : string) : string :=
  match s with
  | "" => ""
  | String c s' =>
      match skip with
      | S k => replaceFrom old new k s'
      | O =>
          if String.prefix old s
          then new +:+ replaceFrom old new (Nat.pred (String.length old)) s'
          else String c (replaceFrom old new 0 s')
      end
  end.

(** [strings.Replace(s, old, new, n)] as the source calls it: [n < 0]
    (no limit) and [old] non-empty. *)
Definition strings_Replace (s old new : string) (n : Z) : string :=
  replaceFrom old new 0 s.

(** ** The template functions (operators.go, lines 30-36 and 270-273) *)

Definition indent (indention : Z) (v : string) : Outcome string :=
  spaces ←! strings_Repeat " " indention;
  let newline := nl +:+ spaces in
  Ret (strings_Replace v nl newline (-1)).

(** The function literal registered under ["add"]. *)
Definition add (i j : Z) : Z := wrapInt (i + j).

(** The values a [template.FuncMap] of this package holds. *)
Inductive TmplFunc : Type :=
| FuncIntString (f : Z → string → Outcome string)
| FuncIntInt (f : Z → Z → Z).

Definition customTmplFuncs : list (string * TmplFunc) :=
  [ ("indent", FuncIntString indent);
    ("add", FuncIntInt add) ].

(** The wording of the specification for [indent]: every newline of the
    text is followed by [n] spaces, everything else is kept. *)
Fixpoint indentSpec (n : nat) (text : string) : string :=
  match text with
  | "" => ""
  | String c rest =>
      if Ascii.eqb c newlineChar
      then String newlineChar (repeatString " " n +:+ indentSpec n rest)
      else String c (indentSpec n rest)
  end.


(** ** Package [encoding/base64]: [StdEncoding.EncodeToString] *)

Definition encodeStd : string :=
  "ABCDEFGHIJKLMNOPQRSTUVWXYZabcdefghijklmnopqrstuvwxyz0123456789+/".

Definition padChar : ascii := "="%char.

(** [enc.encode[val >> shift & 0x3F]] *)
Definition encodeSextet (val : N) (shift : N) : ascii :=
  match String.get (N.to_nat (N.land (N.shiftr val shift) 63)) encodeStd with
  | Some c => c
  | None => padChar
  end.

Definition byteVal (c : ascii) : N := N_of_ascii c.

Fixpoint base64_Encode (src : string) : string :=
  match src with
  | "" => ""
  | String a (String b (String c rest)) =>
      let val := N.lor (N.lor (N.shiftl (byteVal a) 16) (N.shiftl (byteVal b) 8)) (byteVal c) in
      String (encodeSextet val 18) (String (encodeSextet val 12)
        (String (encodeSextet val 6) (String (encodeSextet val 0) (base64_Encode rest))))
  | String a (String b "") =>
      let val := N.lor (N.shiftl (byteVal a) 16) (N.shiftl (byteVal b) 8) in
      String (encodeSextet val 18) (String (encodeSextet val 12)
        (String (encodeSextet val 6) (String padChar "")))
  | String a "" =>
      let val := N.shiftl (byteVal a) 16 in
      String (encodeSextet val 18) (String (encodeSextet val 12)
        (String padChar (String padChar "")))
  end.

Definition base64_StdEncoding_EncodeToString (src : string) : string :=
  base64_Encode src.

(** ** Package [fmt]: the one format the source uses *)

(** The verb [%d] applied to an [int]. *)
Definition formatInt (i : Z) : string := NilZero.string_of_int (Z.to_int i).

(** [fmt.Sprintf("%s-etcd-%d", name, i)] *)
Definition Sprintf_etcd (name : string) (i : Z) : string :=
  name +:+ "-etcd-" +:+ formatInt i.

(** ** Package [path/filepath] *)

(** [filepath.Join(dir, name)] for two non-empty elements that are already
    clean (no [.], [..] or doubled separator), as at its three call sites;
    the separator is the slash. *)
Definition filepath_Join (dir name : string) : string :=
  dir +:+ "/" +:+ name.

(** ** Package [asset]: files and their order *)

Record File : Type := mkFile {
  Filename : string;
  Data : string;
}.

Global Instance File_eq_dec : EqDecision File.
Proof. solve_decision. Defined.

(** The comparison of two files by path, bytewise as Go compares strings. *)
Definition fileLe (a b : File) : Prop := (Filename a ≤ Filename b)%string.
Definition fileLt (a b : File) : Prop := String.ltb (Filename a) (Filename b).

Global Instance fileLe_dec : RelDecision fileLe :=
  λ a b, decide (Filename a ≤ Filename b)%string.
Global Instance fileLt_dec : RelDecision fileLt :=
  λ a b, decide (Is_true (String.ltb (Filename a) (Filename b))).

(** Modelled from the spec: [asset.SortFiles] is not part of the source
    file; the specification says the file set is put in its canonical
    order, lexicographic by path. The model is a merge sort on the path;
    the properties below use only that its result is a permutation of its
    argument ordered by path, not how it arranges files of equal path. *)
Definition SortFiles (files : list File) : list File :=
  merge_sort fileLe files.

(** The paths of a file list, and the two order invariants on it. *)
Definition paths (files : list File) : list string := Filename <$> files.
Definition pathsSorted (files : list File) : Prop := Sorted fileLe files.
Definition pathsStrictlyIncreasing (files : list File) : Prop := Sorted fileLt files.

(** [asset.FileFetcher]: its one method, [FetchByPattern]. *)
Definition FileFetcher : Type := string → result (list File).

(** [fs[0]] on a slice of files. *)
Definition firstFile (fs : list File) : Outcome File :=
  match fs with
  | f :: _ => Ret f
  | [] => Panic (RuntimeError "index out of range [0] with length 0")
  end.

(** ** Iteration over a Go map *)

(** Go leaves the order in which [range] visits a map unspecified and
    varies it between runs. A run is described by the choices it makes:
    at each step the next choice, reduced modulo the number of entries not
    yet visited, selects the entry to visit. Every list of choices is a
    run and every order of the entries is reached by one. *)
Fixpoint visit {A} (n : nat) (choices : list nat) (l : list A) : list A :=
  match n with
  | O => []
  | S n' =>
      let c := hd 0%nat choices in
      let i := (c mod length l)%nat in
      match l !! i with
      | Some x => x :: visit n' (tl choices) (delete i l)
      | None => []
      end
  end.

Definition rangeOrder {A} (choices : list nat) (l : list A) : list A :=
  visit (length l) choices l.

Definition rangeMap {V} (choices : list nat) (m : gmap string V) : list (string * V) :=
  rangeOrder choices (map_to_list m).

(** ** The types of package [manifests] the source file uses *)

Abbreviation genericData := (gmap string string).

(** Modelled from the spec: the declaration of [configurationObject] and
    the helper [configMap] are not part of the source file; the
    specification describes the object as a structured document with a
    namespace, a kind, a name and embedded key to string-value data,
    representing a cluster config map. *)
Record configurationObject : Type := mkConfigurationObject {
  Kind : string;
  Namespace : string;
  Name : string;
  ObjData : gmap string string;
}.

Definition configMap (namespace name : string) (data : genericData)
  : configurationObject :=
  {| Kind := "ConfigMap"; Namespace := namespace; Name := name; ObjData := data |}.

(** [&configurationObject{}] *)
Definition emptyConfigurationObject : configurationObject :=
  {| Kind := ""; Namespace := ""; Name := ""; ObjData := ∅ |}.

(** The fields of [bootkubeTemplateData] that the struct literal of
    [generateBootKubeManifests] sets. *)
Record bootkubeTemplateData : Type := mkBootkubeTemplateData {
  Base64encodeCloudProviderConfig : string;
  EtcdCaCert : string;
  EtcdClientCert : string;
  EtcdClientKey : string;
  KubeCaCert : string;
  KubeCaKey : string;
  McsTLSCert : string;
  McsTLSKey : string;
  PullSecretBase64 : string;
  RootCaCert : string;
  ServiceServingCaCert : string;
  ServiceServingCaKey : string;
  CVOClusterID : string;
  EtcdEndpointHostnames : list string;
  EtcdEndpointDNSSuffix : string;
}.

Record Manifests : Type := mkManifests {
  KubeSysConfig : option configurationObject;
  FileList : list File;
}.

(** ** The resolved dependencies ([asset.Parents]) *)

(** What the source reads of [installConfig.Config]. *)
Record InstallConfigData : Type := mkInstallConfigData {
  MasterCount : Z;
  ObjectMeta_Name : string;
  PullSecret : string;
  BaseDomain : string;
}.

Record InstallConfig : Type := mkInstallConfig {
  InstallConfig_Files : list File;
  Config : InstallConfigData;
}.

(** A certificate asset of package [tls]: [Cert()] and [Key()]. *)
Record CertKey : Type := mkCertKey {
  Cert : string;
  Key : string;
}.

(** [dependencies.Get] fills each asset the caller names from the parents;
    the record holds one resolved instance per asset the source fetches. *)
Record Parents : Type := mkParents {
  installConfig : InstallConfig;
  ingress : list File;
  dns : list File;
  network : list File;
  infra : list File;
  clusterID : string;
  etcdCA : CertKey;
  etcdClientCertKey : CertKey;
  kubeCA : CertKey;
  mcsCertKey : CertKey;
  rootCA : CertKey;
  serviceServingCA : CertKey;
  kubeCloudConfig : list File;
  machineConfigServerTLSSecret : list File;
  openshiftServiceCertSignerSecret : list File;
  pull : list File;
  cVOOverrides : list File;
  hostEtcdServiceEndpointsKubeSystem : list File;
  kubeSystemConfigmapEtcdServingCA : list File;
  kubeSystemConfigmapRootCA : list File;
  kubeSystemSecretEtcdClient : list File;
  openshiftMachineConfigOperator : list File;
  openshiftServiceCertSignerNamespace : list File;
  etcdServiceKubeSystem : list File;
  hostEtcdServiceKubeSystem : list File;
}.

(** ** The imported packages the source calls *)

(** [text/template]: [template.New("template").Funcs(funcs).Parse(text)]
    and [Execute]; [Execute] yields the bytes written to the buffer. *)
Record TemplateLib : Type := mkTemplateLib {
  Template : Type;
  template_Parse : list (string * TmplFunc) → string → result Template;
  template_Execute : Template → bootkubeTemplateData → result string;
}.

(** [github.com/ghodss/yaml]: [Marshal], and [Unmarshal] into an object
    (the second argument is the object the caller passes by pointer, the
    result is that object after decoding into it). *)
Record YamlLib : Type := mkYamlLib {
  yaml_Marshal : configurationObject → result string;
  yaml_Unmarshal : string → configurationObject → result configurationObject;
}.

(** ** operators.go *)

Definition manifestDir : string := "manifests".

Definition kubeSysConfigPath : string :=
  filepath_Join manifestDir "cluster-config.yaml".

(** [make([]string, n)]: a negative length panics. *)
Definition makeStrings (n : Z) : Outcome (list string) :=
  if n <? 0 then Panic (RuntimeError "makeslice: len out of range")
  else Ret (replicate (Z.to_nat n) "").

(** [for i := range hs { hs[i] = fmt.Sprintf("%s-etcd-%d", name, i) }] *)
Definition fillHostnames (name : string) (hs : list string) : list string :=
  foldl (λ acc i, <[i := Sprintf_etcd name (Z.of_nat i)]> acc) hs (seq 0 (length hs)).

Definition etcdEndpointHostnames (ic : InstallConfigData) : Outcome (list string) :=
  hs ←! makeStrings (MasterCount ic);
  Ret (fillHostnames (ObjectMeta_Name ic) hs).

(** The struct literal [&bootkubeTemplateData{...}] (lines 153-169). *)
Definition templateDataOf (p : Parents) (hostnames : list string)
  : bootkubeTemplateData :=
  {| Base64encodeCloudProviderConfig := "";
     EtcdCaCert := Cert (etcdCA p);
     EtcdClientCert := base64_StdEncoding_EncodeToString (Cert (etcdClientCertKey p));
     EtcdClientKey := base64_StdEncoding_EncodeToString (Key (etcdClientCertKey p));
     KubeCaCert := base64_StdEncoding_EncodeToString (Cert (kubeCA p));
     KubeCaKey := base64_StdEncoding_EncodeToString (Key (kubeCA p));
     McsTLSCert := base64_StdEncoding_EncodeToString (Cert (mcsCertKey p));
     McsTLSKey := base64_StdEncoding_EncodeToString (Key (mcsCertKey p));
     PullSecretBase64 :=
       base64_StdEncoding_EncodeToString (PullSecret (Config (installConfig p)));
     RootCaCert := Cert (rootCA p);
     ServiceServingCaCert := base64_StdEncoding_EncodeToString (Cert (serviceServingCA p));
     ServiceServingCaKey := base64_StdEncoding_EncodeToString (Key (serviceServingCA p));
     CVOClusterID := clusterID p;
     EtcdEndpointHostnames := hostnames;
     EtcdEndpointDNSSuffix := BaseDomain (Config (installConfig p)) |}.

(** The template context of a run: the hostname loop, then the literal. *)
Definition buildTemplateData (p : Parents) : Outcome bootkubeTemplateData :=
  hostnames ←! etcdEndpointHostnames (Config (installConfig p));
  Ret (templateDataOf p hostnames).

(** How the value of an entry of the map literal [assetData] is obtained:
    by rendering the first file of an asset as a template, or by copying
    it. *)
Inductive EntrySource : Type :=
| Templated (files : list File)
| Copied (files : list File).

(** The map literal [assetData] (lines 200-215), entry by entry in source
    order. *)
Definition assetSources (p : Parents) : list (string * EntrySource) :=
  [ ("kube-cloud-config.yaml", Templated (kubeCloudConfig p));
    ("machine-config-server-tls-secret.yaml", Templated (machineConfigServerTLSSecret p));
    ("openshift-service-signer-secret.yaml", Templated (openshiftServiceCertSignerSecret p));
    ("pull.json", Templated (pull p));
    ("cvo-overrides.yaml", Templated (cVOOverrides p));
    ("host-etcd-service-endpoints.yaml", Templated (hostEtcdServiceEndpointsKubeSystem p));
    ("kube-system-configmap-etcd-serving-ca.yaml", Templated (kubeSystemConfigmapEtcdServingCA p));
    ("kube-system-configmap-root-ca.yaml", Templated (kubeSystemConfigmapRootCA p));
    ("kube-system-secret-etcd-client.yaml", Templated (kubeSystemSecretEtcdClient p));
    ("04-openshift-machine-config-operator.yaml", Copied (openshiftMachineConfigOperator p));
    ("09-openshift-service-signer-namespace.yaml", Copied (openshiftServiceCertSignerNamespace p));
    ("etcd-service.yaml", Copied (etcdServiceKubeSystem p));
    ("host-etcd-service.yaml", Copied (hostEtcdServiceKubeSystem p)) ].

(** The thirteen keys of [assetData]. *)
Definition assetNames : list string :=
  [ "kube-cloud-config.yaml";
    "machine-config-server-tls-secret.yaml";
    "openshift-service-signer-secret.yaml";
    "pull.json";
    "cvo-overrides.yaml";
    "host-etcd-service-endpoints.yaml";
    "kube-system-configmap-etcd-serving-ca.yaml";
    "kube-system-configmap-root-ca.yaml";
    "kube-system-secret-etcd-client.yaml";
    "04-openshift-machine-config-operator.yaml";
    "09-openshift-service-signer-namespace.yaml";
    "etcd-service.yaml";
    "host-etcd-service.yaml" ].

(** Evaluates the element expressions of a literal from left to right; the
    first panic ends the evaluation. *)
Fixpoint evalAll {A B} (f : A → Outcome B) (l : list A) : Outcome (list B) :=
  match l with
  | [] => Ret []
  | a :: rest =>
      b ←! f a;
      bs ←! evalAll f rest;
      Ret (b :: bs)
  end.

Section Operators.
Context (T : TemplateLib) (Y : YamlLib).

(** [template.Must] panics with the parse error; an [Execute] error is
    passed to [panic] (lines 228-235). *)
Definition applyTemplateData (data : string) (templateData : bootkubeTemplateData)
  : Outcome string :=
  match template_Parse T customTmplFuncs data with
  | Err err => Panic (PanicError err)
  | Ok template =>
      match template_Execute T template templateData with
      | Err err => Panic (PanicError err)
      | Ok buf => Ret buf
      end
  end.

(** [applyTemplateData(a.Files()[0].Data, templateData)] *)
Definition renderFirst (templateData : bootkubeTemplateData) (files : list File)
  : Outcome string :=
  f ←! firstFile files;
  applyTemplateData (Data f) templateData.

(** [[]byte(a.Files()[0].Data)] *)
Definition copyFirst (files : list File) : Outcome string :=
  f ←! firstFile files;
  Ret (Data f).

(** The value of one entry of the literal. *)
Definition evalEntry (templateData : bootkubeTemplateData)
  (entry : string * EntrySource) : Outcome (string * string) :=
  data ←! match entry.2 with
          | Templated files => renderFirst templateData files
          | Copied files => copyFirst files
          end;
  Ret (entry.1, data).

(** The map [assetData]. *)
Definition assetDataOf (p : Parents) (templateData : bootkubeTemplateData)
  : Outcome (gmap string string) :=
  entries ←! evalAll (evalEntry templateData) (assetSources p);
  Ret (list_to_map entries).

(** The loop over [assetData] that builds [files] (lines 217-223);
    [order] is the order in which this run visits the map. *)
Definition filesOfAssetData (order : list nat) (assetData : gmap string string)
  : list File :=
  (λ entry, {| Filename := filepath_Join manifestDir entry.1; Data := entry.2 |})
    <$> rangeMap order assetData.

Definition generateBootKubeManifests (order : list nat) (p : Parents)
  : Outcome (list File) :=
  templateData ←! buildTemplateData p;
  assetData ←! assetDataOf p templateData;
  Ret (filesOfAssetData order assetData).

(** The anchor object of a run (lines 97-99). *)
Definition kubeSysConfigOf (installConfigData : string) : configurationObject :=
  configMap "kube-system" "cluster-config-v1"
    {[ "install-config" := installConfigData ]}.

(** [Generate] (lines 88-121): the receiver after the call and the
    returned [error]. The receiver's [KubeSysConfig] is assigned before
    the object is serialized. *)
Definition Generate (order : list nat) (m : Manifests) (dependencies : Parents)
  : Outcome (Manifests * option Error) :=
  icFile ←! firstFile (InstallConfig_Files (installConfig dependencies));
  let kubeSysConfig := kubeSysConfigOf (Data icFile) in
  let m1 := {| KubeSysConfig := Some kubeSysConfig; FileList := FileList m |} in
  match yaml_Marshal Y kubeSysConfig with
  | Err err =>
      Ret (m1, Some (ErrWrap err
                       "failed to create kube-system/cluster-config-v1 configmap"))
  | Ok kubeSysConfigData =>
      bootkube ←! generateBootKubeManifests order dependencies;
      let fileList :=
        [ {| Filename := kubeSysConfigPath; Data := kubeSysConfigData |} ]
          ++ bootkube
          ++ ingress dependencies
          ++ dns dependencies
          ++ network dependencies
          ++ infra dependencies in
      Ret ({| KubeSysConfig := Some kubeSysConfig; FileList := SortFiles fileList |},
           None)
  end.

(** [Files] (lines 124-126). *)
Definition Files (m : Manifests) : list File := FileList m.

(** The loop of [Load] (lines 249-256): the wrapped error when a file at
    the anchor path does not decode, else the object and the flag. *)
Fixpoint loadLoop (fileList : list File) (kubeSysConfig : configurationObject)
  (found : bool) : result (configurationObject * bool) :=
  match fileList with
  | [] => Ok (kubeSysConfig, found)
  | file :: rest =>
      if decide (Filename file = kubeSysConfigPath) then
        match yaml_Unmarshal Y (Data file) kubeSysConfig with
        | Err err => Err (ErrWrap err "failed to unmarshal cluster-config.yaml")
        | Ok decoded => loadLoop rest decoded true
        end
      else loadLoop rest kubeSysConfig found
  end.

(** [Load] (lines 238-268): the receiver after the call, the flag and
    the returned [error]. *)
Definition Load (f : FileFetcher) (m : Manifests) : Manifests * bool * option Error :=
  match f (filepath_Join manifestDir "*") with
  | Err err => (m, false, Some err)
  | Ok fileList =>
      if decide (length fileList = 0%nat) then (m, false, None)
      else
        match loadLoop fileList emptyConfigurationObject false with
        | Err err => (m, false, Some err)
        | Ok (kubeSysConfig, found) =>
            if negb found then (m, false, None)
            else ({| KubeSysConfig := Some kubeSysConfig;
                     FileList := SortFiles fileList |}, true, None)
        end
  end.

End Operators.

(** The files [Generate] merges before it sorts them (lines 105-116). *)
Definition mergedFiles (kubeSysConfigData : string) (bootkube : list File)
  (p : Parents) : list File :=
  [ {| Filename := kubeSysConfigPath; Data := kubeSysConfigData |} ]
    ++ bootkube ++ ingress p ++ dns p ++ network p ++ infra p.

(** ** The storage behind [Load] *)

(** Modelled from the spec: the storage collaborator and its
    [asset.FileFetcher] are not part of the source file. The specification
    describes a byte-level store that is read, written and enumerated by
    path, and a glob-style query for the files directly under the output
    root, with no promise on the order of the enumeration. A store maps a
    path to the content of the file at that path. *)
Definition writeFile (storage : gmap string string) (f : File) : gmap string string :=
  <[Filename f := Data f]> storage.

Definition writeFiles (files : list File) (storage : gmap string string)
  : gmap string string :=
  foldl writeFile storage files.

(** Glob matching for patterns made of literal bytes and [*]; a star
    matches any run of bytes without a separator. *)
Fixpoint globMatch (pattern name : string) : bool :=
  match pattern with
  | "" => if decide (name = "") then true else false
  | String pc pattern' =>
      if decide (pc = "*"%char) then
        (fix star (rest : string) : bool :=
           globMatch pattern' rest ||
           match rest with
           | "" => false
           | String c rest' => if decide (c = "/"%char) then false else star rest'
           end) name
      else
        match name with
        | "" => false
        | String c name' => if decide (pc = c) then globMatch pattern' name' else false
        end
  end.

Definition matchingFiles (pattern : string) (storage : gmap string string)
  : list File :=
  (λ entry, {| Filename := entry.1; Data := entry.2 |})
    <$> filter (λ entry, Is_true (globMatch pattern entry.1)) (map_to_list storage).

(** The fetcher of a store; [enum] is the order in which this enumeration
    happens to list the files. *)
Definition storageFetcher (enum : list nat) (storage : gmap string string)
  : FileFetcher :=
  λ pattern, Ok (rangeOrder enum (matchingFiles pattern storage)).

(** ** The input convention of the sub-units *)

(** The files [Generate] appends after its own (lines 113-116). *)
Definition subUnitFiles (p : Parents) : list File :=
  ingress p ++ dns p ++ network p ++ infra p.

(** The paths [Generate] gives to its own files: the anchor and the keys
    of [assetData] under [manifestDir]. *)
Definition fixedPaths : list string :=
  kubeSysConfigPath :: (filepath_Join manifestDir <$> assetNames).

(** Modelled from the spec: the assets [Ingress], [DNS], [Networking] and
    [Infrastructure] are not part of the source file. The specification
    gives the naming convention of the sub-units: paths are unique, by
    the distinct file names the sub-units choose (the merge does not
    deduplicate), so the paths of the merged files are pairwise
    distinct. *)
Definition subUnitPathsDistinct (p : Parents) : Prop :=
  NoDup (fixedPaths ++ paths (subUnitFiles p)).

(** Modelled from the spec: of the same absent assets, the specification
    says that every artifact lives directly under the output root, with
    no further subdirectory. *)
Definition subUnitFilesUnderRoot (p : Parents) : Prop :=
  Forall (λ f, Is_true (globMatch (filepath_Join manifestDir "*") (Filename f)))
         (subUnitFiles p).

Definition subUnitFilesValid (p : Parents) : Prop :=
  subUnitPathsDistinct p ∧ subUnitFilesUnderRoot p.

(** The contract of the serialization format on one object: decoding what
    was encoded, into an empty object, gives the object back. *)
Definition yamlRoundTrips (Y : YamlLib) (obj : configurationObject) : Prop :=
  ∀ data, yaml_Marshal Y obj = Ok data →
          yaml_Unmarshal Y data emptyConfigurationObject = Ok obj.

(** ** A small template engine and a small codec *)

(** An instance of [TemplateLib] for examples: the fragment of
    [text/template] made of literal text and of actions that print a
    string field of the context, [{{.Field}}]. As in [text/template], an
    action that is not closed is a parse error and a field the context
    does not have is an execution error. *)
Inductive Node : Type :=
| NodeText (text : string)
| NodeField (name : string).

Definition parseAction (body : string) : result Node :=
  match body with
  | String "." name =>
      if decide (name = "") then Err (ErrNew "template: template:1: unexpected <.> in command")
      else Ok (NodeField name)
  | _ => Err (ErrNew "template: template:1: unsupported action")
  end.

Fixpoint miniLex (inAction : bool) (acc : string) (s : string) {struct s}
  : result (list Node) :=
  let close (rest : result (list Node)) : result (list Node) :=
    match rest with
    | Err e => Err e
    | Ok nodes =>
        if inAction then
          match parseAction (String.rev acc) with
          | Err e => Err e
          | Ok node => Ok (node :: nodes)
          end
        else Ok (NodeText (String.rev acc) :: nodes)
    end in
  match s with
  | "" =>
      if inAction then Err (ErrNew "template: template:1: unclosed action")
      else Ok [NodeText (String.rev acc)]
  | String c rest =>
      match rest with
      | String c2 rest2 =>
          if negb inAction && bool_decide (c = "{"%char) && bool_decide (c2 = "{"%char)
          then close (miniLex true "" rest2)
          else if inAction && bool_decide (c = "}"%char) && bool_decide (c2 = "}"%char)
          then close (miniLex false "" rest2)
          else miniLex inAction (String c acc) rest
      | "" => miniLex inAction (String c acc) rest
      end
  end.

Definition stringFields : list (string * (bootkubeTemplateData → string)) :=
  [ ("Base64encodeCloudProviderConfig", Base64encodeCloudProviderConfig);
    ("EtcdCaCert", EtcdCaCert);
    ("EtcdClientCert", EtcdClientCert);
    ("EtcdClientKey", EtcdClientKey);
    ("KubeCaCert", KubeCaCert);
    ("KubeCaKey", KubeCaKey);
    ("McsTLSCert", McsTLSCert);
    ("McsTLSKey", McsTLSKey);
    ("PullSecretBase64", PullSecretBase64);
    ("RootCaCert", RootCaCert);
    ("ServiceServingCaCert", ServiceServingCaCert);
    ("ServiceServingCaKey", ServiceServingCaKey);
    ("CVOClusterID", CVOClusterID);
    ("EtcdEndpointDNSSuffix", EtcdEndpointDNSSuffix) ].

Definition evalNode (node : Node) (data : bootkubeTemplateData) : result string :=
  match node with
  | NodeText text => Ok text
  | NodeField name =>
      match list_to_map (M := gmap string _) stringFields !! name with
      | Some field => Ok (field data)
      | None => Err (ErrNew ("template: can't evaluate field " +:+ name))
      end
  end.

Fixpoint miniExecute (nodes : list Node) (data : bootkubeTemplateData) : result string :=
  match nodes with
  | [] => Ok ""
  | node :: rest =>
      match evalNode node data with
      | Err e => Err e
      | Ok text =>
          match miniExecute rest data with
          | Err e => Err e
          | Ok out => Ok (text +:+ out)
          end
      end
  end.

Definition miniTemplate : TemplateLib :=
  {| Template := list Node;
     template_Parse := λ _ text, miniLex false "" text;
     template_Execute := miniExecute |}.

(** An instance of [YamlLib] for examples: the fields of the object as
    length-prefixed strings, the data entries after the three scalar
    fields. *)
Definition lengthPrefixed (s : string) : string :=
  NilZero.string_of_uint (Nat.to_uint (String.length s)) +:+ ":" +:+ s.

Fixpoint readLength (acc : nat) (s : string) : option (nat * string) :=
  match s with
  | "" => None
  | String c rest =>
      if decide (c = ":"%char) then Some (acc, rest)
      else d ← Ascii.is_nat c; readLength (10 * acc + d) rest
  end.

Definition readPrefixed (s : string) : option (string * string) :=
  '(n, rest) ← readLength 0 s;
  if decide (n ≤ String.length rest)%nat
  then Some (String.substring 0 n rest,
             String.substring n (String.length rest - n) rest)
  else None.

Fixpoint readEntries (fuel : nat) (s : string) : option (list (string * string)) :=
  if decide (s = "") then Some []
  else match fuel with
       | O => None
       | S fuel' =>
           '(k, r1) ← readPrefixed s;
           '(v, r2) ← readPrefixed r1;
           entries ← readEntries fuel' r2;
           Some ((k, v) :: entries)
       end.

Definition miniMarshal (o : configurationObject) : result string :=
  Ok (lengthPrefixed (Kind o) +:+ lengthPrefixed (Namespace o) +:+ lengthPrefixed (Name o)
      +:+ foldr (λ entry acc, lengthPrefixed entry.1 +:+ lengthPrefixed entry.2 +:+ acc)
                "" (map_to_list (ObjData o))).

Definition miniUnmarshal (data : string) (o : configurationObject)
  : result configurationObject :=
  match
    '(kind, r1) ← readPrefixed data;
    '(namespace, r2) ← readPrefixed r1;
    '(name, r3) ← readPrefixed r2;
    entries ← readEntries (String.length r3) r3;
    Some {| Kind := kind; Namespace := namespace; Name := name;
            ObjData := list_to_map entries |}
  with
  | Some decoded => Ok decoded
  | None => Err (ErrNew "yaml: unmarshal errors")
  end.

Definition miniYaml : YamlLib :=
  {| yaml_Marshal := miniMarshal; yaml_Unmarshal := miniUnmarshal |}.

(** ** Sample inputs *)

Definition oneFile (path data : string) : list File :=
  [ {| Filename := path; Data := data |} ].

Definition sampleInstallConfig : InstallConfig :=
  {| InstallConfig_Files := oneFile "install-config.yml" "baseDomain: example.com";
     Config := {| MasterCount := 3; ObjectMeta_Name := "demo";
                  PullSecret := "{}"; BaseDomain := "example.com" |} |}.

Definition sampleParents : Parents :=
  {| installConfig := sampleInstallConfig;
     ingress := oneFile "manifests/cluster-ingress-02-config.yml" "ingress";
     dns := oneFile "manifests/cluster-dns-02-config.yml" "dns";
     network := oneFile "manifests/cluster-network-02-config.yml" "network";
     infra := oneFile "manifests/cluster-infrastructure-02-config.yml" "infra";
     clusterID := "c1";
     etcdCA := {| Cert := "etcd-ca-cert"; Key := "etcd-ca-key" |};
     etcdClientCertKey := {| Cert := "foo"; Key := "foob" |};
     kubeCA := {| Cert := "fooba"; Key := "foobar" |};
     mcsCertKey := {| Cert := "f"; Key := "fo" |};
     rootCA := {| Cert := "root-ca-cert"; Key := "root-ca-key" |};
     serviceServingCA := {| Cert := "ssc"; Key := "ssk" |};
     kubeCloudConfig := oneFile "kube-cloud-config.yaml" "cloud: {{.Base64encodeCloudProviderConfig}}";
     machineConfigServerTLSSecret := oneFile "mcs.yaml" "crt: {{.McsTLSCert}}";
     openshiftServiceCertSignerSecret := oneFile "signer.yaml" "crt: {{.ServiceServingCaCert}}";
     pull := oneFile "pull.json" "{{.PullSecretBase64}}";
     cVOOverrides := oneFile "cvo.yaml" "id: {{.CVOClusterID}}";
     hostEtcdServiceEndpointsKubeSystem := oneFile "ep.yaml" "suffix: {{.EtcdEndpointDNSSuffix}}";
     kubeSystemConfigmapEtcdServingCA := oneFile "etcd-ca.yaml" "ca: {{.EtcdCaCert}}";
     kubeSystemConfigmapRootCA := oneFile "root-ca.yaml" "ca: {{.RootCaCert}}";
     kubeSystemSecretEtcdClient := oneFile "etcd-client.yaml" "crt: {{.EtcdClientCert}}";
     openshiftMachineConfigOperator := oneFile "mco.yaml" "mco";
     openshiftServiceCertSignerNamespace := oneFile "ns.yaml" "ns";
     etcdServiceKubeSystem := oneFile "etcd-service.yaml" "svc";
     hostEtcdServiceKubeSystem := oneFile "host-etcd-service.yaml" "host-svc" |}.

(** The sample with one template replaced. *)
Definition withKubeCloudConfig (template : string) (p : Parents) : Parents :=
  {| installConfig := installConfig p;
     ingress := ingress p; dns := dns p; network := network p; infra := infra p;
     clusterID := clusterID p;
     etcdCA := etcdCA p; etcdClientCertKey := etcdClientCertKey p;
     kubeCA := kubeCA p; mcsCertKey := mcsCertKey p; rootCA := rootCA p;
     serviceServingCA := serviceServingCA p;
     kubeCloudConfig := oneFile "kube-cloud-config.yaml" template;
     machineConfigServerTLSSecret := machineConfigServerTLSSecret p;
     openshiftServiceCertSignerSecret := openshiftServiceCertSignerSecret p;
     pull := pull p;
     cVOOverrides := cVOOverrides p;
     hostEtcdServiceEndpointsKubeSystem := hostEtcdServiceEndpointsKubeSystem p;
     kubeSystemConfigmapEtcdServingCA := kubeSystemConfigmapEtcdServingCA p;
     kubeSystemConfigmapRootCA := kubeSystemConfigmapRootCA p;
     kubeSystemSecretEtcdClient := kubeSystemSecretEtcdClient p;
     openshiftMachineConfigOperator := openshiftMachineConfigOperator p;
     openshiftServiceCertSignerNamespace := openshiftServiceCertSignerNamespace p;
     etcdServiceKubeSystem := etcdServiceKubeSystem p;
     hostEtcdServiceKubeSystem := hostEtcdServiceKubeSystem p |}.

Definition emptyManifests : Manifests := {| KubeSysConfig := None; FileList := [] |}.

(** A fetcher that lists one file, not at the anchor path. *)
Definition strayFetcher : FileFetcher :=
  λ _, Ok (oneFile "manifests/pull.json" "e30=").

(** A fetcher that lists a file at the anchor path which does not decode. *)
Definition corruptFetcher : FileFetcher :=
  λ _, Ok (oneFile "manifests/pull.json" "e30="
             ++ oneFile "manifests/cluster-config.yaml" "not an object").

(** A codec whose [Marshal] always fails. *)
Definition failingYaml : YamlLib :=
  {| yaml_Marshal := λ _, Err (ErrNew "yaml: marshal error");
     yaml_Unmarshal := miniUnmarshal |}.

(** A store with a decodable anchor and two other files. *)
Definition sampleStorage : gmap string string :=
  writeFiles
    (oneFile "manifests/zz.yaml" "z"
       ++ oneFile "manifests/cluster-config.yaml" "0:0:0:"
       ++ oneFile "manifests/aa.yaml" "a") ∅.

(** A receiver that already holds a loaded state. *)
Definition loadedManifests : Manifests :=
  {| KubeSysConfig := Some emptyConfigurationObject;
     FileList := oneFile "manifests/old.yaml" "old" |}.

(** ** The rest of operators.go *)

(** [Name] (lines 47-49). *)
Definition Manifests_Name (m : Manifests) : string := "Common Manifests".

(** The asset types the file names. *)
Inductive AssetType : Type :=
| AssetClusterID | AssetInstallConfig | AssetIngress | AssetDNS
| AssetInfrastructure | AssetNetworking
| AssetRootCA | AssetEtcdCA | AssetIngressCertKey | AssetKubeCA
| AssetServiceServingCA | AssetEtcdClientCertKey | AssetMCSCertKey
| AssetKubeletCertKey
| AssetKubeCloudConfig | AssetMachineConfigServerTLSSecret
| AssetOpenshiftServiceCertSignerSecret | AssetPull | AssetCVOOverrides
| AssetHostEtcdServiceEndpointsKubeSystem
| AssetKubeSystemConfigmapEtcdServingCA | AssetKubeSystemConfigmapRootCA
| AssetKubeSystemSecretEtcdClient
| AssetOpenshiftMachineConfigOperator
| AssetOpenshiftServiceCertSignerNamespace
| AssetEtcdServiceKubeSystem | AssetHostEtcdServiceKubeSystem.

Global Instance AssetType_eq_dec : EqDecision AssetType.
Proof. solve_decision. Defined.

(** [Dependencies] (lines 53-85), in source order. *)
Definition Dependencies : list AssetType :=
  [ AssetClusterID; AssetInstallConfig; AssetIngress; AssetDNS;
    AssetInfrastructure; AssetNetworking;
    AssetRootCA; AssetEtcdCA; AssetIngressCertKey; AssetKubeCA;
    AssetServiceServingCA; AssetEtcdClientCertKey; AssetMCSCertKey;
    AssetKubeletCertKey;
    AssetKubeCloudConfig; AssetMachineConfigServerTLSSecret;
    AssetOpenshiftServiceCertSignerSecret; AssetPull; AssetCVOOverrides;
    AssetHostEtcdServiceEndpointsKubeSystem;
    AssetKubeSystemConfigmapEtcdServingCA; AssetKubeSystemConfigmapRootCA;
    AssetKubeSystemSecretEtcdClient;
    AssetOpenshiftMachineConfigOperator;
    AssetOpenshiftServiceCertSignerNamespace;
    AssetEtcdServiceKubeSystem; AssetHostEtcdServiceKubeSystem ].

(** The assets [Generate] fetches with [dependencies.Get] (line 94). *)
Definition fetchedByGenerate : list AssetType :=
  [ AssetInstallConfig; AssetIngress; AssetDNS; AssetNetworking;
    AssetInfrastructure ].

(** The assets [generateBootKubeManifests] fetches: the call of lines
    137-146, then the call of lines 185-199. *)
Definition fetchedByBootKube : list AssetType :=
  [ AssetClusterID; AssetInstallConfig; AssetEtcdCA; AssetEtcdClientCertKey;
    AssetKubeCA; AssetMCSCertKey; AssetRootCA; AssetServiceServingCA ]
    ++ [ AssetKubeCloudConfig; AssetMachineConfigServerTLSSecret;
         AssetOpenshiftServiceCertSignerSecret; AssetPull; AssetCVOOverrides;
         AssetHostEtcdServiceEndpointsKubeSystem;
         AssetKubeSystemConfigmapEtcdServingCA; AssetKubeSystemConfigmapRootCA;
         AssetKubeSystemSecretEtcdClient;
         AssetOpenshiftMachineConfigOperator;
         AssetOpenshiftServiceCertSignerNamespace;
         AssetEtcdServiceKubeSystem; AssetHostEtcdServiceKubeSystem ].

(** ** Vocabulary of the further properties *)

(** The number of newline bytes of a text. *)
Fixpoint countNewlines (text : string) : nat :=
  match text with
  | "" => 0
  | String c rest =>
      (if Ascii.eqb c newlineChar then 1 else 0) + countNewlines rest
  end.

(** The fetched files that are at the anchor path, in the order of the
    listing. *)
Definition anchorFiles (fileList : list File) : list File :=
  filter (λ f, Filename f = kubeSysConfigPath) fileList.

(** Decoding files one after the other into the same object, as
    [yaml.Unmarshal] is called on the one [kubeSysConfig] of [Load]. *)
Fixpoint decodeAll (Y : YamlLib) (files : list File) (cfg : configurationObject)
  : result configurationObject :=
  match files with
  | [] => Ok cfg
  | f :: rest =>
      match yaml_Unmarshal Y (Data f) cfg with
      | Err e => Err e
      | Ok decoded => decodeAll Y rest decoded
      end
  end.

(** A codec whose [Unmarshal] merges the decoded entries into the data
    the object already has, and a fetcher that lists two files at the
    anchor path. *)
Definition mergingYaml : YamlLib :=
  {| yaml_Marshal := miniMarshal;
     yaml_Unmarshal := λ data o,
       match miniUnmarshal data o with
       | Err e => Err e
       | Ok decoded =>
           Ok {| Kind := Kind decoded; Namespace := Namespace decoded;
                 Name := Name decoded;
                 ObjData := ObjData decoded ∪ ObjData o |}
       end |}.

Definition twoAnchorsFetcher : FileFetcher :=
  λ _, Ok (oneFile "manifests/cluster-config.yaml" "1:a0:0:1:k1:v"
             ++ oneFile "manifests/pull.json" "e30="
             ++ oneFile "manifests/cluster-config.yaml" "1:b0:0:1:l1:w").

(** A fetcher whose enumeration fails. *)
Definition failingFetcher : FileFetcher :=
  λ _, Err (ErrNew "open manifests: permission denied").

(** The sample with the install configuration file removed. *)
Definition withoutInstallConfigFile (p : Parents) : Parents :=
  {| installConfig := {| InstallConfig_Files := [];
                         Config := Config (installConfig p) |};
     ingress := ingress p; dns := dns p; network := network p; infra := infra p;
     clusterID := clusterID p;
     etcdCA := etcdCA p; etcdClientCertKey := etcdClientCertKey p;
     kubeCA := kubeCA p; mcsCertKey := mcsCertKey p; rootCA := rootCA p;
     serviceServingCA := serviceServingCA p;
     kubeCloudConfig := kubeCloudConfig p;
     machineConfigServerTLSSecret := machineConfigServerTLSSecret p;
     openshiftServiceCertSignerSecret := openshiftServiceCertSignerSecret p;
     pull := pull p;
     cVOOverrides := cVOOverrides p;
     hostEtcdServiceEndpointsKubeSystem := hostEtcdServiceEndpointsKubeSystem p;
     kubeSystemConfigmapEtcdServingCA := kubeSystemConfigmapEtcdServingCA p;
     kubeSystemConfigmapRootCA := kubeSystemConfigmapRootCA p;
     kubeSystemSecretEtcdClient := kubeSystemSecretEtcdClient p;
     openshiftMachineConfigOperator := openshiftMachineConfigOperator p;
     openshiftServiceCertSignerNamespace := openshiftServiceCertSignerNamespace p;
     etcdServiceKubeSystem := etcdServiceKubeSystem p;
     hostEtcdServiceKubeSystem := hostEtcdServiceKubeSystem p |}.

(** ** Sorting by path, in general *)

(** Modelled from the spec: of [asset.SortFiles], which is not part of
    the source file, the specification says that it puts the files in
    the order of their paths; it does not say how files of equal path are
    arranged (the [sort.Slice] of Go's library, which orders a slice in
    place, is not stable). A sort by path is any function that returns
    the same files ordered by path. *)
Definition sortsByPath (sort : list File → list File) : Prop :=
  ∀ files, sort files ≡ₚ files ∧ pathsSorted (sort files).

(** A sort by path that is not stable, in the manner of a quicksort: the
    first file is the pivot, the others are split into those of smaller
    path and the rest, each part collected in the reverse of the order
    in which it is met. *)
Fixpoint splitAt (pivot : File) (files lower upper : list File)
  : list File * list File :=
  match files with
  | [] => (lower, upper)
  | f :: rest =>
      if decide (fileLt f pivot)
      then splitAt pivot rest (f :: lower) upper
      else splitAt pivot rest lower (f :: upper)
  end.

Fixpoint pivotSortFuel (fuel : nat) (files : list File) : list File :=
  match fuel, files with
  | S fuel', pivot :: rest =>
      let parts := splitAt pivot rest [] [] in
      pivotSortFuel fuel' parts.1 ++ pivot :: pivotSortFuel fuel' parts.2
  | _, _ => []
  end.

Definition pivotSort (files : list File) : list File :=
  pivotSortFuel (length files) files.

(** [Generate] (lines 88-121) over the sort that [asset.SortFiles] is:
    [Generate] is [GenerateWith SortFiles]. *)
Definition GenerateWith (sort : list File → list File) (T : TemplateLib)
  (Y : YamlLib) (order : list nat) (m : Manifests) (dependencies : Parents)
  : Outcome (Manifests * option Error) :=
  icFile ←! firstFile (InstallConfig_Files (installConfig dependencies));
  let kubeSysConfig := kubeSysConfigOf (Data icFile) in
  match yaml_Marshal Y kubeSysConfig with
  | Err err =>
      Ret ({| KubeSysConfig := Some kubeSysConfig; FileList := FileList m |},
           Some (ErrWrap err
                   "failed to create kube-system/cluster-config-v1 configmap"))
  | Ok kubeSysConfigData =>
      bootkube ←! generateBootKubeManifests T order dependencies;
      Ret ({| KubeSysConfig := Some kubeSysConfig;
              FileList := sort (mergedFiles kubeSysConfigData bootkube dependencies) |},
           None)
  end.

(** The sample with the file of [Ingress] put at a given path. *)
Definition withIngressAt (path : string) (p : Parents) : Parents :=
  {| installConfig := installConfig p;
     ingress := oneFile path "ingress";
     dns := dns p; network := network p; infra := infra p;
     clusterID := clusterID p;
     etcdCA := etcdCA p; etcdClientCertKey := etcdClientCertKey p;
     kubeCA := kubeCA p; mcsCertKey := mcsCertKey p; rootCA := rootCA p;
     serviceServingCA := serviceServingCA p;
     kubeCloudConfig := kubeCloudConfig p;
     machineConfigServerTLSSecret := machineConfigServerTLSSecret p;
     openshiftServiceCertSignerSecret := openshiftServiceCertSignerSecret p;
     pull := pull p;
     cVOOverrides := cVOOverrides p;
     hostEtcdServiceEndpointsKubeSystem := hostEtcdServiceEndpointsKubeSystem p;
     kubeSystemConfigmapEtcdServingCA := kubeSystemConfigmapEtcdServingCA p;
     kubeSystemConfigmapRootCA := kubeSystemConfigmapRootCA p;
     kubeSystemSecretEtcdClient := kubeSystemSecretEtcdClient p;
     openshiftMachineConfigOperator := openshiftMachineConfigOperator p;
     openshiftServiceCertSignerNamespace := openshiftServiceCertSignerNamespace p;
     etcdServiceKubeSystem := etcdServiceKubeSystem p;
     hostEtcdServiceKubeSystem := hostEtcdServiceKubeSystem p |}.

(** An input on which two merged files share a path: the file of
    [Ingress] is named as the pull secret manifest is. *)
Definition collidingParents : Parents :=
  withIngressAt "manifests/pull.json" sampleParents.

(** Two outcomes of [Generate] that differ at most in how files of equal
    path are arranged: the same panic, or the same error, the same anchor
    object, the same files and the same sequence of paths. *)
Definition sameUpToTies (o1 o2 : Outcome (Manifests * option Error)) : Prop :=
  match o1, o2 with
  | Ret (m1, err1), Ret (m2, err2) =>
      err1 = err2 ∧ KubeSysConfig m1 = KubeSysConfig m2 ∧
      FileList m1 ≡ₚ FileList m2 ∧ paths (FileList m1) = paths (FileList m2)
  | Panic v1, Panic v2 => v1 = v2
  | _, _ => False
  end.

(** A codec whose decoder accepts 7-bit text only. *)
Definition sevenBit (s : string) : bool :=
  forallb (λ c, bool_decide (nat_of_ascii c < 128)%nat) (list_ascii_of_string s).

Definition textYaml : YamlLib :=
  {| yaml_Marshal := miniMarshal;
     yaml_Unmarshal := λ data o,
       if sevenBit data then miniUnmarshal data o
       else Err (ErrNew "yaml: invalid UTF-8") |}.

(** The sample with the given content in the install configuration
    file. *)
Definition withInstallConfigData (data : string) (p : Parents) : Parents :=
  {| installConfig := {| InstallConfig_Files := oneFile "install-config.yml" data;
                         Config := Config (installConfig p) |};
     ingress := ingress p; dns := dns p; network := network p; infra := infra p;
     clusterID := clusterID p;
     etcdCA := etcdCA p; etcdClientCertKey := etcdClientCertKey p;
     kubeCA := kubeCA p; mcsCertKey := mcsCertKey p; rootCA := rootCA p;
     serviceServingCA := serviceServingCA p;
     kubeCloudConfig := kubeCloudConfig p;
     machineConfigServerTLSSecret := machineConfigServerTLSSecret p;
     openshiftServiceCertSignerSecret := openshiftServiceCertSignerSecret p;
     pull := pull p;
     cVOOverrides := cVOOverrides p;
     hostEtcdServiceEndpointsKubeSystem := hostEtcdServiceEndpointsKubeSystem p;
     kubeSystemConfigmapEtcdServingCA := kubeSystemConfigmapEtcdServingCA p;
     kubeSystemConfigmapRootCA := kubeSystemConfigmapRootCA p;
     kubeSystemSecretEtcdClient := kubeSystemSecretEtcdClient p;
     openshiftMachineConfigOperator := openshiftMachineConfigOperator p;
     openshiftServiceCertSignerNamespace := openshiftServiceCertSignerNamespace p;
     etcdServiceKubeSystem := etcdServiceKubeSystem p;
     hostEtcdServiceKubeSystem := hostEtcdServiceKubeSystem p |}.

(** An install configuration file that holds the byte [ff]. *)
Definition binaryParents : Parents :=
  withInstallConfigData (String "255"%char "") sampleParents.

(** * Properties *)

(** ** Outcomes and integers *)

Lemma bindO_Ret_inv {A B} (o : Outcome A) (k : A → Outcome B) b :
  bindO o k = Ret b → ∃ a, o = Ret a ∧ k a = Ret b.
Proof. destruct o as [a|v]; simpl; [eauto | discriminate]. Qed.

Lemma wrapInt_inInt z : inInt (wrapInt z).
Proof. unfold inInt, wrapInt. pose proof (Z.mod_pos_bound (z + 2 ^ 63) (2 ^ 64)). lia. Qed.

Lemma wrapInt_id z : inInt z → wrapInt z = z.
Proof. unfold inInt, wrapInt. intros H. rewrite Z.mod_small; lia. Qed.

Lemma prefix_empty s : String.prefix "" s = true.
Proof. by destruct s. Qed.

(** One step of the scan when the pattern is the single newline byte. *)
Lemma replaceFrom_newline new c rest :
  replaceFrom nl new 0 (String c rest) =
  if Ascii.eqb c newlineChar
  then new +:+ replaceFrom nl new 0 rest
  else String c (replaceFrom nl new 0 rest).
Proof.
  cbn [replaceFrom]. change nl with (String newlineChar "").
  cbn [String.prefix String.length Nat.pred].
  destruct (ascii_dec newlineChar c) as [<-|Hne].
  - by rewrite Ascii.eqb_refl, prefix_empty.
  - destruct (Ascii.eqb c newlineChar) eqn:E; [|done].
    apply Ascii.eqb_eq in E. congruence.
Qed.

Lemma indent_refines_spec (n : nat) text :
  indent (Z.of_nat n) text = Ret (indentSpec n text).
Proof.
  unfold indent, strings_Repeat, strings_Replace.
  destruct (Z.ltb_spec (Z.of_nat n) 0); [lia|]. simpl. f_equal.
  rewrite Nat2Z.id.
  induction text as [|c rest IH]; [done|].
  rewrite replaceFrom_newline. cbn [indentSpec].
  destruct (Ascii.eqb c newlineChar); by rewrite IH.
Qed.

(** ** The template functions *)

(** The test vectors of RFC 4648, section 10. *)
Example base64_rfc4648_vectors :
  base64_StdEncoding_EncodeToString <$> [""; "f"; "fo"; "foo"; "foob"; "fooba"; "foobar"]
  = [""; "Zg=="; "Zm8="; "Zm9v"; "Zm9vYg=="; "Zm9vYmE="; "Zm9vYmFy"].
Proof. reflexivity. Qed.

(** The standard encoding is padded: four bytes out for every three
    bytes in, the last group completed. *)
Lemma base64_Encode_length s :
  String.length (base64_StdEncoding_EncodeToString s)
  = (4 * ((String.length s + 2) / 3))%nat.
Proof.
  unfold base64_StdEncoding_EncodeToString.
  assert (∀ n s, (String.length s ≤ n)%nat →
                 String.length (base64_Encode s)
                 = (4 * ((String.length s + 2) / 3))%nat) as Hall.
  { clear s. induction n as [|n IH]; intros s Hn.
    - destruct s; [reflexivity|simpl in Hn; lia].
    - destruct s as [|a [|b [|c rest]]]; [reflexivity..|].
      cbn [base64_Encode String.length] in *.
      rewrite IH by lia.
      replace (S (S (S (String.length rest))) + 2)%nat
        with (1 * 3 + (String.length rest + 2))%nat by lia.
      rewrite Nat.div_add_l by lia. lia. }
  by apply (Hall (String.length s)).
Qed.

Example indent_negative_panics :
  indent (-1) "a" = Panic (RuntimeError "strings: negative Repeat count").
Proof. reflexivity. Qed.

Example add_wraps : add (2 ^ 63 - 1) 1 = - 2 ^ 63.
Proof. reflexivity. Qed.

(** C7. [indent(n, text)] replaces every newline of [text] by a newline
    followed by [n] spaces, so [indent(2, "a\nb")] is ["a\n  b"]; and
    [add(i, j)] is the integer sum [i + j] (of two [int]s whose sum is an
    [int]), so [add(3, 4)] is [7]. *)
Theorem indent_add_correct (n : nat) (text : string) (i j : Z) :
  inInt (i + j) →
  indent (Z.of_nat n) text = Ret (indentSpec n text) ∧
  indent 2 ("a" +:+ nl +:+ "b") = Ret ("a" +:+ nl +:+ "  b") ∧
  add i j = i + j ∧
  add 3 4 = 7.
Proof.
  intros Hsum. split_and!.
  - apply indent_refines_spec.
  - reflexivity.
  - by apply wrapInt_id.
  - reflexivity.
Qed.

Lemma indent_add_correct_witness :
  indent (Z.of_nat 2) ("a" +:+ nl +:+ "b") = Ret (indentSpec 2 ("a" +:+ nl +:+ "b")) ∧
  indent 2 ("a" +:+ nl +:+ "b") = Ret ("a" +:+ nl +:+ "  b") ∧
  add 3 4 = 3 + 4 ∧
  add 3 4 = 7.
Proof. apply (indent_add_correct 2 ("a" +:+ nl +:+ "b") 3 4). unfold inInt. lia. Defined.

(** ** The template context *)

(** The verb [%d] prints an index in decimal. *)
Example formatInt_decimal :
  formatInt <$> [0; 7; 10; 123] = ["0"; "7"; "10"; "123"].
Proof. reflexivity. Qed.

Lemma fill_lookup {A} (f : nat → A) (k : nat) :
  ∀ (a : nat) (hs : list A) (i : nat),
    (a + k ≤ length hs)%nat →
    foldl (λ acc i, <[i := f i]> acc) hs (seq a k) !! i =
    if decide (a ≤ i < a + k)%nat then Some (f i) else hs !! i.
Proof.
  induction k as [|k IH]; intros a hs i Hlen; simpl.
  - case_decide; [lia|done].
  - rewrite IH by (rewrite length_insert; lia).
    destruct (decide (i = a)) as [->|Hne].
    + rewrite list_lookup_insert_eq by lia.
      repeat case_decide; try lia; done.
    + rewrite list_lookup_insert_ne by done.
      repeat case_decide; try lia; done.
Qed.

Lemma fill_length {A} (f : nat → A) (k : nat) :
  ∀ (a : nat) (hs : list A),
    length (foldl (λ acc i, <[i := f i]> acc) hs (seq a k)) = length hs.
Proof.
  induction k as [|k IH]; intros a hs; simpl; [done|].
  by rewrite IH, length_insert.
Qed.

Lemma fillHostnames_length name hs : length (fillHostnames name hs) = length hs.
Proof. apply fill_length. Qed.

Lemma fillHostnames_lookup name hs (i : nat) :
  (i < length hs)%nat →
  fillHostnames name hs !! i = Some (Sprintf_etcd name (Z.of_nat i)).
Proof.
  intros Hi. unfold fillHostnames.
  rewrite (fill_lookup (λ i, Sprintf_etcd name (Z.of_nat i))) by (simpl; lia).
  case_decide; [done|lia].
Qed.

Lemma etcdEndpointHostnames_Ret ic :
  0 ≤ MasterCount ic →
  etcdEndpointHostnames ic =
  Ret (fillHostnames (ObjectMeta_Name ic) (replicate (Z.to_nat (MasterCount ic)) "")).
Proof.
  intros Hn. unfold etcdEndpointHostnames, makeStrings.
  destruct (Z.ltb_spec (MasterCount ic) 0); [lia|done].
Qed.

(** C6. With three masters and the cluster name ["demo"] the endpoint
    hostnames of the template context are [demo-etcd-0], [demo-etcd-1],
    [demo-etcd-2]; in general there is one hostname per master and the
    hostname at index [i] is the cluster name, [-etcd-] and [i]. *)
Theorem etcd_hostnames_per_master (p : Parents) :
  0 ≤ MasterCount (Config (installConfig p)) →
  ∃ td,
    buildTemplateData p = Ret td ∧
    length (EtcdEndpointHostnames td) = Z.to_nat (MasterCount (Config (installConfig p))) ∧
    (∀ i : nat,
        Z.of_nat i < MasterCount (Config (installConfig p)) →
        EtcdEndpointHostnames td !! i =
        Some (ObjectMeta_Name (Config (installConfig p)) +:+ "-etcd-" +:+ formatInt (Z.of_nat i))) ∧
    (MasterCount (Config (installConfig p)) = 3 →
     ObjectMeta_Name (Config (installConfig p)) = "demo" →
     EtcdEndpointHostnames td = ["demo-etcd-0"; "demo-etcd-1"; "demo-etcd-2"]).
Proof.
  intros Hn. unfold buildTemplateData.
  rewrite etcdEndpointHostnames_Ret by done. simpl.
  eexists. split; [reflexivity|]. simpl. split_and!.
  - by rewrite fillHostnames_length, length_replicate.
  - intros i Hi. apply fillHostnames_lookup. rewrite length_replicate. lia.
  - intros -> ->. reflexivity.
Qed.

Lemma etcd_hostnames_per_master_witness :
  ∃ td,
    buildTemplateData sampleParents = Ret td ∧
    EtcdEndpointHostnames td = ["demo-etcd-0"; "demo-etcd-1"; "demo-etcd-2"].
Proof.
  destruct (etcd_hostnames_per_master sampleParents) as (td & Htd & _ & _ & Hdemo).
  - simpl. lia.
  - exists td. split; [exact Htd | apply Hdemo; reflexivity].
Defined.

(** C8. In the template context of a run the etcd CA certificate and the
    root CA certificate are the raw certificate bytes; the etcd client
    certificate and key, the kube CA certificate and key, the MCS TLS
    certificate and key, the pull secret and the service-serving CA
    certificate and key are their standard base64 encodings. *)
Theorem templateData_field_encoding (p : Parents) (td : bootkubeTemplateData) :
  buildTemplateData p = Ret td →
  (EtcdCaCert td = Cert (etcdCA p) ∧
   RootCaCert td = Cert (rootCA p)) ∧
  (EtcdClientCert td = base64_StdEncoding_EncodeToString (Cert (etcdClientCertKey p)) ∧
   EtcdClientKey td = base64_StdEncoding_EncodeToString (Key (etcdClientCertKey p)) ∧
   KubeCaCert td = base64_StdEncoding_EncodeToString (Cert (kubeCA p)) ∧
   KubeCaKey td = base64_StdEncoding_EncodeToString (Key (kubeCA p)) ∧
   McsTLSCert td = base64_StdEncoding_EncodeToString (Cert (mcsCertKey p)) ∧
   McsTLSKey td = base64_StdEncoding_EncodeToString (Key (mcsCertKey p)) ∧
   PullSecretBase64 td =
     base64_StdEncoding_EncodeToString (PullSecret (Config (installConfig p))) ∧
   ServiceServingCaCert td = base64_StdEncoding_EncodeToString (Cert (serviceServingCA p)) ∧
   ServiceServingCaKey td = base64_StdEncoding_EncodeToString (Key (serviceServingCA p))).
Proof.
  unfold buildTemplateData. intros H.
  apply bindO_Ret_inv in H as (hs & _ & [= <-]).
  by split_and!.
Qed.

Lemma templateData_field_encoding_witness :
  ∃ td,
    buildTemplateData sampleParents = Ret td ∧
    EtcdCaCert td = "etcd-ca-cert" ∧ RootCaCert td = "root-ca-cert" ∧
    EtcdClientCert td = "Zm9v" ∧ EtcdClientKey td = "Zm9vYg==" ∧
    KubeCaCert td = "Zm9vYmE=" ∧ KubeCaKey td = "Zm9vYmFy" ∧
    McsTLSCert td = "Zg==" ∧ McsTLSKey td = "Zm8=" ∧
    PullSecretBase64 td = "e30=".
Proof.
  eexists. split; [reflexivity|].
  pose proof (templateData_field_encoding sampleParents _ eq_refl)
    as ((H1 & H2) & H3 & H4 & H5 & H6 & H7 & H8 & H9 & _).
  split_and!.
  - exact H1.
  - exact H2.
  - exact H3.
  - exact H4.
  - exact H5.
  - exact H6.
  - exact H7.
  - exact H8.
  - exact H9.
Defined.

(** ** The order of files *)

Lemma string_compare_refl s : String.compare s s = Eq.
Proof.
  induction s as [|c s IH]; simpl; [done|].
  unfold Ascii.compare. by rewrite N.compare_refl.
Qed.

Lemma string_ltb_leb_ne a b :
  String.ltb a b = true ↔ String.leb a b = true ∧ a ≠ b.
Proof.
  unfold String.ltb, String.leb.
  destruct (String.compare a b) eqn:E; split; try (intros [? ?]); try done.
  - apply String.compare_eq_iff in E. congruence.
  - intros _. split; [done|]. intros ->. by rewrite string_compare_refl in E.
Qed.

Global Instance fileLe_trans : Transitive fileLe.
Proof. intros a b c. unfold fileLe. apply transitivity. Qed.

Global Instance fileLe_total : Total fileLe.
Proof. intros a b. unfold fileLe. apply total, _. Qed.

Lemma fileLt_spec a b : fileLt a b ↔ fileLe a b ∧ Filename a ≠ Filename b.
Proof.
  unfold fileLt, fileLe, String.le.
  rewrite !Is_true_true. apply string_ltb_leb_ne.
Qed.

Lemma fileLe_antisym a b : fileLe a b → fileLe b a → Filename a = Filename b.
Proof. unfold fileLe. apply (anti_symm String.le). Qed.

Lemma SortFiles_Permutation files : SortFiles files ≡ₚ files.
Proof. apply merge_sort_Permutation. Qed.

Lemma SortFiles_sorted files : pathsSorted (SortFiles files).
Proof. apply (Sorted_merge_sort fileLe). Qed.

(** In a list whose paths are pairwise distinct a file is determined by
    its path. *)
Lemma paths_NoDup_inj files a b :
  NoDup (paths files) → a ∈ files → b ∈ files → Filename a = Filename b → a = b.
Proof.
  unfold paths. induction files as [|f files IH]; simpl; intros Hnd Ha Hb Hab.
  { by apply elem_of_nil in Ha. }
  apply NoDup_cons in Hnd as [Hf Hnd].
  apply elem_of_cons in Ha as [->|Ha]; apply elem_of_cons in Hb as [->|Hb]; auto.
  - exfalso. apply Hf. rewrite Hab. by apply list_elem_of_fmap_2.
  - exfalso. apply Hf. rewrite <- Hab. by apply list_elem_of_fmap_2.
Qed.

(** A list ordered by path whose paths are pairwise distinct is strictly
    increasing. *)
Lemma sorted_distinct_strict files :
  pathsSorted files → NoDup (paths files) → pathsStrictlyIncreasing files.
Proof.
  unfold pathsSorted, pathsStrictlyIncreasing, paths.
  induction 1 as [|f files Hs IH Hhd]; intros Hnd; [constructor|].
  simpl in Hnd. apply NoDup_cons in Hnd as [Hf Hnd].
  constructor; [auto|].
  destruct Hhd as [|g files' Hfg]; constructor.
  apply fileLt_spec. split; [done|].
  intros Heq. apply Hf. rewrite Heq. simpl. left.
Qed.

(** Strictly increasing paths are pairwise distinct. *)
Lemma strict_paths_NoDup files :
  pathsStrictlyIncreasing files → NoDup (paths files).
Proof.
  unfold pathsStrictlyIncreasing, paths. intros Hs.
  assert (Transitive fileLt) as Htrans.
  { intros a b c. rewrite !fileLt_spec. intros [Hab Hne1] [Hbc Hne2]. split.
    - by etrans.
    - intros Heq. apply Hne1. apply fileLe_antisym; [done|].
      unfold fileLe in *. by rewrite Heq. }
  apply Sorted_StronglySorted in Hs; [|done].
  induction Hs as [|f files Hs IH Hall]; simpl; [constructor|].
  apply NoDup_cons. split; [|done].
  intros Hin. apply list_elem_of_fmap in Hin as (g & Heq & Hg).
  rewrite Forall_forall in Hall. apply Hall, fileLt_spec in Hg as [_ Hne]. done.
Qed.

(** Two lists ordered by path that hold the same files, of pairwise
    distinct paths, are the same list: the order of the result of sorting
    does not depend on the order of its argument. *)
Lemma sorted_distinct_unique l1 l2 :
  NoDup (paths l1) → pathsSorted l1 → pathsSorted l2 → l1 ≡ₚ l2 → l1 = l2.
Proof.
  intros Hnd Hs1 Hs2 Hperm.
  apply (Sorted_unique_strong fileLe); [|done..].
  intros a b Ha Hb Hab Hba.
  apply (paths_NoDup_inj l1); [done|done| |by apply fileLe_antisym].
  by rewrite Hperm.
Qed.

Lemma SortFiles_order_independent l1 l2 :
  NoDup (paths l1) → l1 ≡ₚ l2 → SortFiles l1 = SortFiles l2.
Proof.
  intros Hnd Hperm. apply sorted_distinct_unique.
  - unfold paths. by rewrite SortFiles_Permutation.
  - apply SortFiles_sorted.
  - apply SortFiles_sorted.
  - by rewrite !SortFiles_Permutation.
Qed.

Lemma SortFiles_strict files :
  NoDup (paths files) → pathsStrictlyIncreasing (SortFiles files).
Proof.
  intros Hnd. apply sorted_distinct_strict; [apply SortFiles_sorted|].
  unfold paths. by rewrite SortFiles_Permutation.
Qed.

Lemma strict_paths_sorted files :
  pathsStrictlyIncreasing files → pathsSorted files.
Proof.
  unfold pathsStrictlyIncreasing, pathsSorted.
  induction 1 as [|f files Hs IH Hhd]; constructor; [done|].
  destruct Hhd as [|g files' Hfg]; constructor.
  by apply fileLt_spec in Hfg as [? _].
Qed.

(** A strictly increasing list is left as it is. *)
Lemma SortFiles_sorted_id files :
  pathsStrictlyIncreasing files → SortFiles files = files.
Proof.
  intros Hs. apply sorted_distinct_unique.
  - unfold paths. rewrite SortFiles_Permutation. by apply strict_paths_NoDup.
  - apply SortFiles_sorted.
  - by apply strict_paths_sorted.
  - apply SortFiles_Permutation.
Qed.

(** ** Sorts by path *)

Lemma SortFiles_sortsByPath : sortsByPath SortFiles.
Proof. intros files. split; [apply SortFiles_Permutation|apply SortFiles_sorted]. Qed.

(** On files of pairwise distinct paths every sort by path gives the
    same list, in whatever order the files are handed to it. *)
Lemma sortsByPath_order_independent sort l1 l2 :
  sortsByPath sort → NoDup (paths l1) → l1 ≡ₚ l2 → sort l1 = sort l2.
Proof.
  intros Hsort Hnd Hperm.
  destruct (Hsort l1) as [Hp1 Hs1], (Hsort l2) as [Hp2 Hs2].
  apply sorted_distinct_unique; [|done..|].
  - unfold paths. by rewrite Hp1.
  - by rewrite Hp1, Hp2.
Qed.

(** Two lists ordered by path that hold the same files have the same
    sequence of paths. *)
Lemma sorted_paths_unique l1 l2 :
  pathsSorted l1 → pathsSorted l2 → l1 ≡ₚ l2 → paths l1 = paths l2.
Proof.
  intros Hs1 Hs2 Hperm. unfold paths.
  apply (Sorted_unique String.le).
  - by apply (Sorted_fmap Filename fileLe String.le).
  - by apply (Sorted_fmap Filename fileLe String.le).
  - by rewrite Hperm.
Qed.

Lemma not_fileLt_fileLe a b : ¬ fileLt a b → fileLe b a.
Proof.
  intros Hnot. destruct (total fileLe b a) as [|Hab]; [done|].
  destruct (decide (Filename a = Filename b)) as [Heq|Hne].
  - unfold fileLe. by rewrite Heq.
  - exfalso. apply Hnot. by apply fileLt_spec.
Qed.

Lemma splitAt_spec pivot files :
  ∀ lower upper,
    (splitAt pivot files lower upper).1 ++ (splitAt pivot files lower upper).2
    ≡ₚ files ++ lower ++ upper ∧
    (Forall (λ f, fileLt f pivot) lower →
     Forall (λ f, fileLt f pivot) (splitAt pivot files lower upper).1) ∧
    (Forall (fileLe pivot) upper →
     Forall (fileLe pivot) (splitAt pivot files lower upper).2).
Proof.
  induction files as [|f rest IH]; intros lower upper; cbn [splitAt].
  { by split_and!. }
  case_decide as Hlt.
  - destruct (IH (f :: lower) upper) as (Hperm & Hlower & Hupper). split_and!.
    + rewrite Hperm. simpl. by rewrite <- Permutation_middle.
    + intros Hall. apply Hlower. by constructor.
    + done.
  - destruct (IH lower (f :: upper)) as (Hperm & Hlower & Hupper). split_and!.
    + rewrite Hperm. simpl. by rewrite <- !Permutation_middle.
    + done.
    + intros Hall. apply Hupper. constructor; [|done]. by apply not_fileLt_fileLe.
Qed.

Lemma pivotSortFuel_spec fuel :
  ∀ files,
    (length files ≤ fuel)%nat →
    pivotSortFuel fuel files ≡ₚ files ∧
    StronglySorted fileLe (pivotSortFuel fuel files).
Proof.
  induction fuel as [|fuel IH]; intros files Hlen.
  { destruct files; [split; [done|constructor]|simpl in Hlen; lia]. }
  destruct files as [|pivot rest]; [split; [done|constructor]|].
  cbn [pivotSortFuel].
  destruct (splitAt_spec pivot rest [] []) as (Hperm & Hlower & Hupper).
  rewrite !app_nil_r in Hperm.
  set (parts := splitAt pivot rest [] []) in *.
  assert (length parts.1 + length parts.2 = length rest)%nat as Hsum
      by (by rewrite <- length_app, Hperm).
  simpl in Hlen.
  destruct (IH parts.1) as [Hp1 Hs1]; [lia|].
  destruct (IH parts.2) as [Hp2 Hs2]; [lia|].
  split.
  - rewrite Hp1, Hp2, <- Permutation_middle. by constructor.
  - apply StronglySorted_app_2; [|done|].
    + intros x1 x2 Hx1 Hx2. rewrite Hp1 in Hx1.
      assert (fileLt x1 pivot) as Hlt.
      { specialize (Hlower (Forall_nil_2 _)). rewrite Forall_forall in Hlower. auto. }
      apply fileLt_spec in Hlt as [Hle _].
      apply elem_of_cons in Hx2 as [->|Hx2]; [done|].
      rewrite Hp2 in Hx2. specialize (Hupper (Forall_nil_2 _)).
      rewrite Forall_forall in Hupper. by etrans; [|apply Hupper].
    + constructor; [done|]. rewrite Hp2. apply Hupper. constructor.
Qed.

Lemma pivotSort_sortsByPath : sortsByPath pivotSort.
Proof.
  intros files. destruct (pivotSortFuel_spec (length files) files) as [Hp Hs]; [done|].
  split; [done|]. by apply StronglySorted_Sorted.
Qed.

(** ** The order of a [range] over a map *)

Lemma visit_Permutation {A} (n : nat) :
  ∀ (choices : list nat) (l : list A), length l = n → visit n choices l ≡ₚ l.
Proof.
  induction n as [|n IH]; intros choices l Hlen; simpl.
  - by destruct l.
  - assert (hd 0%nat choices mod length l < length l)%nat as Hi
        by (apply Nat.mod_upper_bound; lia).
    destruct (lookup_lt_is_Some_2 l _ Hi) as [x Hx]. rewrite Hx.
    etrans; [|symmetry; apply (delete_Permutation l _ x Hx)].
    constructor. apply IH. rewrite length_delete by eauto. lia.
Qed.

Lemma rangeOrder_Permutation {A} (choices : list nat) (l : list A) :
  rangeOrder choices l ≡ₚ l.
Proof. by apply visit_Permutation. Qed.

(** Every order of the entries is the order of some run. *)
Lemma rangeOrder_complete {A} (l' : list A) :
  ∀ l, l' ≡ₚ l → ∃ choices, rangeOrder choices l = l'.
Proof.
  unfold rangeOrder.
  induction l' as [|x l' IH]; intros l Hperm.
  - apply Permutation_nil in Hperm as ->. by exists [].
  - assert (x ∈ l) as Hin by (rewrite <- Hperm; left).
    apply list_elem_of_lookup in Hin as [i Hi].
    pose proof (lookup_lt_Some _ _ _ Hi) as Hlt.
    destruct (IH (delete i l)) as [choices Hchoices].
    { apply (inj (x ::.)). rewrite Hperm. by apply delete_Permutation. }
    exists (i :: choices).
    destruct (length l) as [|n] eqn:Hlen; [lia|]. simpl.
    rewrite Hlen, Nat.mod_small by lia. rewrite Hi. f_equal.
    rewrite <- Hchoices. f_equal. rewrite length_delete by eauto. lia.
Qed.

(** ** Literals evaluated from left to right *)

Lemma evalAll_Ret_inv {A B} (f : A → Outcome B) l bs :
  evalAll f l = Ret bs → Forall2 (λ a b, f a = Ret b) l bs.
Proof.
  revert bs. induction l as [|a l IH]; simpl; intros bs H.
  - injection H as <-. constructor.
  - apply bindO_Ret_inv in H as (b & Hb & H).
    apply bindO_Ret_inv in H as (bs' & Hbs & [= <-]).
    constructor; auto.
Qed.

Lemma evalAll_Panic {A B} (f : A → Outcome B) l a v :
  a ∈ l → f a = Panic v → ∃ v', evalAll f l = Panic v'.
Proof.
  induction l as [|a' l IH]; intros Hin Hf.
  { by apply elem_of_nil in Hin. }
  apply elem_of_cons in Hin as [->|Hin]; simpl.
  - rewrite Hf. simpl. eauto.
  - destruct (f a') as [b|w]; simpl; [|eauto].
    destruct (IH Hin Hf) as [v' ->]. simpl. eauto.
Qed.

Lemma assetNames_NoDup : NoDup assetNames.
Proof. apply (bool_decide_unpack _). by vm_compute. Qed.

Lemma assetSources_names p : (assetSources p).*1 = assetNames.
Proof. reflexivity. Qed.

Section OperatorsProperties.
Context (T : TemplateLib) (Y : YamlLib).

Lemma evalEntry_name td entry r :
  evalEntry T td entry = Ret r → r.1 = entry.1.
Proof.
  unfold evalEntry. intros H.
  by apply bindO_Ret_inv in H as (data & _ & [= <-]).
Qed.

(** The keys of [assetData] are the thirteen names of the literal. *)
Lemma assetDataOf_entries p td assetData :
  assetDataOf T p td = Ret assetData →
  (map_to_list assetData).*1 ≡ₚ assetNames.
Proof.
  unfold assetDataOf. intros H.
  apply bindO_Ret_inv in H as (entries & Hentries & [= <-]).
  apply evalAll_Ret_inv in Hentries.
  assert (entries.*1 = assetNames) as Hnames.
  { rewrite <- (assetSources_names p).
    induction Hentries as [|a b l bs Hab _ IH]; simpl; [done|].
    f_equal; [|done]. by apply evalEntry_name in Hab. }
  rewrite map_to_list_to_map; rewrite Hnames; [done|apply assetNames_NoDup].
Qed.

Lemma filesOfAssetData_Permutation order1 order2 assetData :
  filesOfAssetData order1 assetData ≡ₚ filesOfAssetData order2 assetData.
Proof.
  unfold filesOfAssetData, rangeMap. by rewrite !rangeOrder_Permutation.
Qed.

Lemma filesOfAssetData_paths order p td assetData :
  assetDataOf T p td = Ret assetData →
  paths (filesOfAssetData order assetData) ≡ₚ filepath_Join manifestDir <$> assetNames.
Proof.
  intros H. apply assetDataOf_entries in H. rewrite <- H.
  unfold paths, filesOfAssetData, rangeMap.
  rewrite rangeOrder_Permutation, <- !list_fmap_compose. done.
Qed.

Lemma mergedFiles_paths order p td assetData data :
  assetDataOf T p td = Ret assetData →
  paths (mergedFiles data (filesOfAssetData order assetData) p)
  ≡ₚ fixedPaths ++ paths (subUnitFiles p).
Proof.
  intros H. apply (filesOfAssetData_paths order) in H.
  unfold mergedFiles, subUnitFiles, fixedPaths, paths in *.
  rewrite !fmap_app, H. reflexivity.
Qed.

(** What a returning run of [Generate] went through. *)
Lemma Generate_Ret_inv order m p m' err :
  Generate T Y order m p = Ret (m', err) →
  ∃ icFile,
    firstFile (InstallConfig_Files (installConfig p)) = Ret icFile ∧
    ((∃ e,
         yaml_Marshal Y (kubeSysConfigOf (Data icFile)) = Err e ∧
         err = Some (ErrWrap e "failed to create kube-system/cluster-config-v1 configmap") ∧
         m' = {| KubeSysConfig := Some (kubeSysConfigOf (Data icFile));
                 FileList := FileList m |})
     ∨
     (∃ data td assetData,
         yaml_Marshal Y (kubeSysConfigOf (Data icFile)) = Ok data ∧
         buildTemplateData p = Ret td ∧
         assetDataOf T p td = Ret assetData ∧
         err = None ∧
         m' = {| KubeSysConfig := Some (kubeSysConfigOf (Data icFile));
                 FileList :=
                   SortFiles (mergedFiles data (filesOfAssetData order assetData) p) |})).
Proof.
  unfold Generate. intros H.
  apply bindO_Ret_inv in H as (icFile & HicFile & H).
  exists icFile. split; [done|].
  destruct (yaml_Marshal Y (kubeSysConfigOf (Data icFile))) as [data|e].
  - right. apply bindO_Ret_inv in H as (bootkube & Hbootkube & [= <- <-]).
    unfold generateBootKubeManifests in Hbootkube.
    apply bindO_Ret_inv in Hbootkube as (td & Htd & Hbootkube).
    apply bindO_Ret_inv in Hbootkube as (assetData & HassetData & [= <-]).
    by exists data, td, assetData.
  - left. injection H as <- <-. by exists e.
Qed.

(** ** Template failures *)

Lemma applyTemplateData_Ret_inv data td out :
  applyTemplateData T data td = Ret out →
  ∃ t, template_Parse T customTmplFuncs data = Ok t ∧
       template_Execute T t td = Ok out.
Proof.
  unfold applyTemplateData.
  destruct (template_Parse T customTmplFuncs data) as [t|e]; [|done].
  destruct (template_Execute T t td) as [buf|e] eqn:E; [|done].
  intros [= <-]. eauto.
Qed.

(** C1, as the code has it. [applyTemplateData] returns the rendered
    bytes when the template parses and executes; when parsing or
    execution fails it panics with the error. [Generate] does not turn a
    rendering failure into an error value: the only error it returns is
    that of the serialization of the anchor object, and when one of the
    nine templated manifests fails to render, a run that got as far as
    rendering panics. *)
Theorem template_failure_panics :
  (∀ data td e,
      template_Parse T customTmplFuncs data = Err e →
      applyTemplateData T data td = Panic (PanicError e)) ∧
  (∀ data td t e,
      template_Parse T customTmplFuncs data = Ok t →
      template_Execute T t td = Err e →
      applyTemplateData T data td = Panic (PanicError e)) ∧
  (∀ data td t out,
      template_Parse T customTmplFuncs data = Ok t →
      template_Execute T t td = Ok out →
      applyTemplateData T data td = Ret out) ∧
  (∀ order m p m' err,
      Generate T Y order m p = Ret (m', Some err) →
      ∃ icFile e,
        firstFile (InstallConfig_Files (installConfig p)) = Ret icFile ∧
        yaml_Marshal Y (kubeSysConfigOf (Data icFile)) = Err e ∧
        err = ErrWrap e "failed to create kube-system/cluster-config-v1 configmap") ∧
  (∀ order m p icFile data td name f rest v,
      firstFile (InstallConfig_Files (installConfig p)) = Ret icFile →
      yaml_Marshal Y (kubeSysConfigOf (Data icFile)) = Ok data →
      buildTemplateData p = Ret td →
      (name, Templated (f :: rest)) ∈ assetSources p →
      applyTemplateData T (Data f) td = Panic v →
      ∃ v', Generate T Y order m p = Panic v').
Proof.
  split_and!.
  - intros data td e H. unfold applyTemplateData. by rewrite H.
  - intros data td t e H1 H2. unfold applyTemplateData. by rewrite H1, H2.
  - intros data td t out H1 H2. unfold applyTemplateData. by rewrite H1, H2.
  - intros order m p m' err H.
    apply Generate_Ret_inv in H as (icFile & HicFile & [H|H]).
    + destruct H as (e & He & [= ->] & _). eauto.
    + by destruct H as (? & ? & ? & _ & _ & _ & ? & _).
  - intros order m p icFile data td name f rest v HicFile Hdata Htd Hin Hpanic.
    unfold Generate. rewrite HicFile. simpl. rewrite Hdata.
    unfold generateBootKubeManifests. rewrite Htd. simpl.
    unfold assetDataOf.
    destruct (evalAll_Panic (evalEntry T td) (assetSources p)
                (name, Templated (f :: rest)) v Hin) as [v' Hv'].
    { unfold evalEntry, renderFirst. simpl. by rewrite Hpanic. }
    rewrite Hv'. simpl. eauto.
Qed.

(** ** The anchor file *)

(** C5. After a run of [Generate] that returns no error, the file list
    holds a file at [manifests/cluster-config.yaml] whose content is the
    serialization of the config map [kube-system/cluster-config-v1],
    whose data is the single entry [install-config] with the content of
    the install configuration file, and that object is the receiver's
    [KubeSysConfig]. When the serialization fails, [Generate] returns
    the error wrapped and the file list is as it was. *)
Theorem Generate_anchor_file order m p :
  (∀ m',
      Generate T Y order m p = Ret (m', None) →
      ∃ icFile data,
        firstFile (InstallConfig_Files (installConfig p)) = Ret icFile ∧
        yaml_Marshal Y
          (configMap "kube-system" "cluster-config-v1"
             {[ "install-config" := Data icFile ]}) = Ok data ∧
        KubeSysConfig m' =
          Some (configMap "kube-system" "cluster-config-v1"
                  {[ "install-config" := Data icFile ]}) ∧
        {| Filename := "manifests/cluster-config.yaml"; Data := data |} ∈ FileList m') ∧
  (∀ icFile e,
      firstFile (InstallConfig_Files (installConfig p)) = Ret icFile →
      yaml_Marshal Y
        (configMap "kube-system" "cluster-config-v1"
           {[ "install-config" := Data icFile ]}) = Err e →
      Generate T Y order m p =
      Ret ({| KubeSysConfig :=
                Some (configMap "kube-system" "cluster-config-v1"
                        {[ "install-config" := Data icFile ]});
              FileList := FileList m |},
           Some (ErrWrap e "failed to create kube-system/cluster-config-v1 configmap"))).
Proof.
  split.
  - intros m' H.
    apply Generate_Ret_inv in H as (icFile & HicFile & [H|H]).
    { by destruct H as (? & _ & ? & _). }
    destruct H as (data & td & assetData & Hdata & _ & _ & _ & ->).
    exists icFile, data. split_and!; [done..|]. simpl.
    rewrite SortFiles_Permutation. unfold mergedFiles. simpl. left.
  - intros icFile e HicFile He. unfold Generate.
    rewrite HicFile. simpl. unfold kubeSysConfigOf. by rewrite He.
Qed.

End OperatorsProperties.

(** ** Determinism and the order of the result *)

Section GenerateProperties.
Context (T : TemplateLib) (Y : YamlLib).

Lemma Generate_FileList_paths order m p m' :
  Generate T Y order m p = Ret (m', None) →
  paths (FileList m') ≡ₚ fixedPaths ++ paths (subUnitFiles p).
Proof.
  intros H. apply Generate_Ret_inv in H as (icFile & _ & [H|H]).
  { by destruct H as (? & _ & ? & _). }
  destruct H as (data & td & assetData & _ & _ & HassetData & _ & ->). simpl.
  rewrite <- (mergedFiles_paths T order p td assetData data HassetData).
  unfold paths. by rewrite SortFiles_Permutation.
Qed.

Lemma Generate_is_GenerateWith order m p :
  Generate T Y order m p = GenerateWith SortFiles T Y order m p.
Proof. reflexivity. Qed.

(** C9, as the code has it. Two runs of [Generate] on the same receiver
    and the same resolved dependencies, whatever the order in which each
    run happens to visit the map [assetData] and whatever sort by path
    [asset.SortFiles] is, have the same outcome up to the arrangement of
    files of equal path: the same panic, or the same error, the same
    anchor object, the same files and the same sequence of paths. When
    the paths of the merged files are pairwise distinct the two outcomes
    are equal: then the sort alone fixes the order of the file list.
    [Generate] does not remove files of equal path, and how the sort
    arranges them is not fixed by its being a sort by path. *)
Theorem Generate_deterministic sort order1 order2 m p :
  sortsByPath sort →
  sameUpToTies (GenerateWith sort T Y order1 m p) (GenerateWith sort T Y order2 m p) ∧
  sameUpToTies (Generate T Y order1 m p) (Generate T Y order2 m p) ∧
  (subUnitPathsDistinct p →
   GenerateWith sort T Y order1 m p = GenerateWith sort T Y order2 m p ∧
   Generate T Y order1 m p = Generate T Y order2 m p).
Proof.
  intros Hsort.
  assert (∀ sort', sortsByPath sort' →
                   sameUpToTies (GenerateWith sort' T Y order1 m p)
                                (GenerateWith sort' T Y order2 m p)) as Hties.
  { intros sort' Hsort'. unfold sameUpToTies, GenerateWith.
    destruct (firstFile (InstallConfig_Files (installConfig p))) as [icFile|v]; [|done].
    simpl. destruct (yaml_Marshal Y (kubeSysConfigOf (Data icFile))) as [data|e]; [|done].
    unfold generateBootKubeManifests.
    destruct (buildTemplateData p) as [td|v]; [|done]. simpl.
    destruct (assetDataOf T p td) as [assetData|v]; [|done]. simpl.
    assert (mergedFiles data (filesOfAssetData order1 assetData) p
            ≡ₚ mergedFiles data (filesOfAssetData order2 assetData) p) as Hperm.
    { unfold mergedFiles. apply Permutation_app; [done|].
      apply Permutation_app; [|done]. apply filesOfAssetData_Permutation. }
    destruct (Hsort' (mergedFiles data (filesOfAssetData order1 assetData) p))
      as [Hp1 Hs1].
    destruct (Hsort' (mergedFiles data (filesOfAssetData order2 assetData) p))
      as [Hp2 Hs2].
    assert (sort' (mergedFiles data (filesOfAssetData order1 assetData) p)
            ≡ₚ sort' (mergedFiles data (filesOfAssetData order2 assetData) p))
      as Hsorted by (by rewrite Hp1, Hp2).
    split_and!; [done..|]. by apply sorted_paths_unique. }
  split; [by apply Hties|].
  split; [rewrite !Generate_is_GenerateWith; apply Hties, SortFiles_sortsByPath|].
  intros Hnd.
  assert (∀ sort', sortsByPath sort' →
                   GenerateWith sort' T Y order1 m p
                   = GenerateWith sort' T Y order2 m p) as Hany.
  { intros sort' Hsort'. unfold GenerateWith.
    destruct (firstFile (InstallConfig_Files (installConfig p))) as [icFile|v]; [|done].
    simpl. destruct (yaml_Marshal Y (kubeSysConfigOf (Data icFile))) as [data|e]; [|done].
    unfold generateBootKubeManifests.
    destruct (buildTemplateData p) as [td|v]; [|done]. simpl.
    destruct (assetDataOf T p td) as [assetData|v] eqn:HassetData; [|done]. simpl.
    do 3 f_equal.
    apply (sortsByPath_order_independent sort'
             (mergedFiles data (filesOfAssetData order1 assetData) p)
             (mergedFiles data (filesOfAssetData order2 assetData) p)); [done| |].
    - by rewrite (mergedFiles_paths T order1 p td assetData data HassetData).
    - unfold mergedFiles. apply Permutation_app; [done|].
      apply Permutation_app; [|done].
      apply filesOfAssetData_Permutation. }
  split; [by apply Hany|].
  rewrite !Generate_is_GenerateWith. apply Hany, SortFiles_sortsByPath.
Qed.

(** ** [Load] *)

Lemma loadLoop_no_anchor fileList cfg found :
  kubeSysConfigPath ∉ paths fileList →
  loadLoop Y fileList cfg found = Ok (cfg, found).
Proof.
  unfold paths. induction fileList as [|file rest IH]; simpl; intros Hnot; [done|].
  rewrite not_elem_of_cons in Hnot. destruct Hnot as [Hne Hnot].
  case_decide; [congruence|auto].
Qed.

Lemma loadLoop_app pre post cfg found :
  kubeSysConfigPath ∉ paths pre →
  loadLoop Y (pre ++ post) cfg found = loadLoop Y post cfg found.
Proof.
  unfold paths. induction pre as [|file rest IH]; simpl; intros Hnot; [done|].
  rewrite not_elem_of_cons in Hnot. destruct Hnot as [Hne Hnot].
  case_decide; [congruence|auto].
Qed.

(** A fetched list of pairwise distinct paths that holds a file at the
    anchor path: the loop decodes that file, and nothing else. *)
Lemma loadLoop_unique_anchor fileList anchor cfg0 found :
  NoDup (paths fileList) →
  anchor ∈ fileList →
  Filename anchor = kubeSysConfigPath →
  loadLoop Y fileList cfg0 found =
  match yaml_Unmarshal Y (Data anchor) cfg0 with
  | Ok cfg => Ok (cfg, true)
  | Err err => Err (ErrWrap err "failed to unmarshal cluster-config.yaml")
  end.
Proof.
  intros Hnd Hin Hname.
  apply list_elem_of_split in Hin as (pre & post & ->).
  unfold paths in Hnd. rewrite fmap_app, fmap_cons in Hnd.
  apply NoDup_app in Hnd as (_ & Hpre & Hpost).
  apply NoDup_cons in Hpost as [Hpost _].
  rewrite loadLoop_app.
  - simpl. case_decide; [|done].
    destruct (yaml_Unmarshal Y (Data anchor) cfg0) as [cfg|err]; [|done].
    apply loadLoop_no_anchor. unfold paths. by rewrite <- Hname.
  - intros Hin. apply (Hpre _ Hin). rewrite Hname. left.
Qed.

(** C4. [Load] reports [found = false] and no error when the
    enumeration under the output root lists no file, and when it lists
    files but none at [manifests/cluster-config.yaml]; when the first
    file at that path does not deserialize, [Load] returns an error
    (with [found = false]), which the two other cases do not. *)
Theorem Load_not_found_or_parse_error (f : FileFetcher) (m : Manifests)
  (fileList : list File) :
  f (filepath_Join manifestDir "*") = Ok fileList →
  (fileList = [] → Load Y f m = (m, false, None)) ∧
  ("manifests/cluster-config.yaml" ∉ paths fileList → Load Y f m = (m, false, None)) ∧
  (∀ pre file post e,
      fileList = pre ++ file :: post →
      "manifests/cluster-config.yaml" ∉ paths pre →
      Filename file = "manifests/cluster-config.yaml" →
      yaml_Unmarshal Y (Data file) emptyConfigurationObject = Err e →
      Load Y f m = (m, false, Some (ErrWrap e "failed to unmarshal cluster-config.yaml"))).
Proof.
  intros Hf. unfold Load. rewrite Hf. split_and!.
  - by intros ->.
  - intros Hnot. case_decide; [done|].
    by rewrite loadLoop_no_anchor.
  - intros pre file post e -> Hpre Hname He.
    case_decide as Hlen.
    { rewrite length_app in Hlen. simpl in Hlen. lia. }
    rewrite loadLoop_app by done. simpl.
    case_decide; [|done]. by rewrite He.
Qed.

(** The four ways out of [Load]. *)
Lemma Load_cases (f : FileFetcher) (m m' : Manifests) (found : bool)
  (err : option Error) :
  Load Y f m = (m', found, err) →
  (found = false ∧ m' = m) ∨
  (found = true ∧ err = None ∧
   ∃ fileList kubeSysConfig,
     f (filepath_Join manifestDir "*") = Ok fileList ∧
     loadLoop Y fileList emptyConfigurationObject false = Ok (kubeSysConfig, true) ∧
     m' = {| KubeSysConfig := Some kubeSysConfig; FileList := SortFiles fileList |}).
Proof.
  unfold Load.
  destruct (f (filepath_Join manifestDir "*")) as [fileList|e].
  2:{ intros [= <- <- <-]. by left. }
  case_decide.
  { intros [= <- <- <-]. by left. }
  destruct (loadLoop Y fileList emptyConfigurationObject false)
    as [[kubeSysConfig found']|e] eqn:Hloop.
  2:{ intros [= <- <- <-]. by left. }
  destruct found'; simpl; intros [= <- <- <-]; [right|by left].
  split_and!; [done..|]. by exists fileList, kubeSysConfig.
Qed.

(** C10. [Load] changes the receiver only when it reports
    [found = true]: whenever it returns [found = false] or an error,
    [FileList] and [KubeSysConfig] are as they were; when it returns
    [found = true] there is no error and both fields are assigned, from
    the fetched and sorted list and from the decoded anchor. *)
Theorem Load_atomic (f : FileFetcher) (m m' : Manifests) (found : bool)
  (err : option Error) :
  Load Y f m = (m', found, err) →
  (found = false ∨ err ≠ None → m' = m) ∧
  (found = true →
   err = None ∧
   ∃ fileList kubeSysConfig,
     f (filepath_Join manifestDir "*") = Ok fileList ∧
     loadLoop Y fileList emptyConfigurationObject false = Ok (kubeSysConfig, true) ∧
     m' = {| KubeSysConfig := Some kubeSysConfig; FileList := SortFiles fileList |}).
Proof.
  intros H. apply Load_cases in H as [[-> ->]|(-> & -> & H)].
  - split; [done|discriminate].
  - split; [|done]. intros [?|?]; done.
Qed.

(** ** The sort invariant *)

Lemma matchingFiles_NoDup pattern (storage : gmap string string) :
  NoDup (paths (matchingFiles pattern storage)).
Proof.
  unfold paths, matchingFiles. rewrite <- list_fmap_compose.
  apply (NoDup_fmap_2_strong _).
  - intros [k1 v1] [k2 v2] H1 H2 Heq. simpl in Heq. subst k2.
    apply list_elem_of_filter in H1 as [_ H1], H2 as [_ H2].
    apply elem_of_map_to_list in H1, H2. congruence.
  - apply NoDup_filter, NoDup_map_to_list.
Qed.

(** C3, as the code has it. The file list of a run of [Generate] that
    returns no error, and the file list [Load] assigns when it reports
    [found = true], are ordered by path, bytewise. [Generate] and [Load]
    sort and remove no file, so the paths are strictly increasing, no
    path twice, exactly when the merged files, for [Load] the fetched
    files, have pairwise distinct paths; the enumeration of a store lists
    no path twice, so after [Load] on a store they always are. *)
Theorem FileList_strictly_increasing :
  (∀ order m p m',
      Generate T Y order m p = Ret (m', None) →
      pathsSorted (FileList m') ∧
      (pathsStrictlyIncreasing (FileList m') ↔ subUnitPathsDistinct p)) ∧
  (∀ (f : FileFetcher) fileList m m',
      Load Y f m = (m', true, None) →
      f (filepath_Join manifestDir "*") = Ok fileList →
      pathsSorted (FileList m') ∧
      (pathsStrictlyIncreasing (FileList m') ↔ NoDup (paths fileList))) ∧
  (∀ enum (storage : gmap string string) m m',
      Load Y (storageFetcher enum storage) m = (m', true, None) →
      pathsStrictlyIncreasing (FileList m')).
Proof.
  assert (∀ (f : FileFetcher) fileList m m',
             Load Y f m = (m', true, None) →
             f (filepath_Join manifestDir "*") = Ok fileList →
             pathsSorted (FileList m') ∧
             (pathsStrictlyIncreasing (FileList m') ↔ NoDup (paths fileList)))
    as HLoad.
  { intros f fileList m m' H Hf.
    apply Load_cases in H as [[? _]|(_ & _ & fileList' & cfg & Hf' & _ & ->)];
      [done|].
    rewrite Hf in Hf'. injection Hf' as <-. simpl.
    split; [apply SortFiles_sorted|]. split; [|apply SortFiles_strict].
    intros Hstrict. apply strict_paths_NoDup in Hstrict.
    unfold paths in *. by rewrite SortFiles_Permutation in Hstrict. }
  split_and!.
  - intros order m p m' H.
    pose proof (Generate_FileList_paths order m p m' H) as Hpaths.
    apply Generate_Ret_inv in H as (icFile & _ & [H|H]).
    { by destruct H as (? & _ & ? & _). }
    destruct H as (data & td & assetData & _ & _ & HassetData & _ & ->).
    cbn [FileList] in *. split; [apply SortFiles_sorted|]. split.
    + intros Hstrict. apply strict_paths_NoDup in Hstrict.
      unfold subUnitPathsDistinct. by rewrite <- Hpaths.
    + intros Hnd. apply SortFiles_strict.
      by rewrite (mergedFiles_paths T order p td assetData data HassetData).
  - exact HLoad.
  - intros enum storage m m' H.
    apply (HLoad _ _ _ _ H eq_refl).
    unfold paths. rewrite rangeOrder_Permutation. apply matchingFiles_NoDup.
Qed.

End GenerateProperties.

(** ** Writing the files and loading them back *)

Lemma filter_Forall_id {A} (P : A → Prop) `{!∀ x, Decision (P x)} (l : list A) :
  Forall P l → filter P l = l.
Proof.
  induction 1 as [|x l Hx _ IH]; [done|].
  rewrite filter_cons. case_decide; [by f_equal|done].
Qed.

Lemma writeFiles_map_to_list files :
  ∀ storage : gmap string string,
    NoDup (paths files) →
    (∀ f, f ∈ files → storage !! Filename f = None) →
    map_to_list (writeFiles files storage)
    ≡ₚ ((λ f, (Filename f, Data f)) <$> files) ++ map_to_list storage.
Proof.
  unfold paths, writeFiles.
  induction files as [|f files IH]; intros storage Hnd Hfresh; simpl; [done|].
  apply NoDup_cons in Hnd as [Hf Hnd].
  rewrite IH; [|done|].
  - unfold writeFile. rewrite map_to_list_insert.
    + by rewrite Permutation_middle.
    + apply Hfresh. left.
  - intros g Hg. unfold writeFile. rewrite lookup_insert_ne.
    + apply Hfresh. by right.
    + intros Heq. apply Hf. rewrite Heq. by apply list_elem_of_fmap_2.
Qed.

(** A store written from files of pairwise distinct paths that all match
    the pattern lists exactly those files. *)
Lemma matchingFiles_written pattern files :
  NoDup (paths files) →
  Forall (λ f, Is_true (globMatch pattern (Filename f))) files →
  matchingFiles pattern (writeFiles files ∅) ≡ₚ files.
Proof.
  intros Hnd Hall. unfold matchingFiles.
  rewrite writeFiles_map_to_list; [|done|intros; apply lookup_empty].
  rewrite map_to_list_empty, app_nil_r.
  rewrite filter_Forall_id.
  - rewrite <- list_fmap_compose.
    assert (∀ l : list File,
               (λ entry : string * string, {| Filename := entry.1; Data := entry.2 |})
                 ∘ (λ f, (Filename f, Data f)) <$> l = l) as Hid.
    { induction l as [|[] l IH]; [done|]. rewrite fmap_cons. simpl. by f_equal. }
    by rewrite Hid.
  - by apply Forall_fmap.
Qed.

Lemma fixedPaths_under_root :
  Forall (λ path, Is_true (globMatch (filepath_Join manifestDir "*") path)) fixedPaths.
Proof. apply (bool_decide_unpack _). by vm_compute. Qed.

Section RoundTrip.
Context (T : TemplateLib) (Y : YamlLib).

(** [Load] on a listing, in any order, of files of pairwise distinct
    paths among which there is a file at the anchor path. *)
Lemma Load_listing_any (f : FileFetcher) fetched files anchor m0 :
  f (filepath_Join manifestDir "*") = Ok fetched →
  fetched ≡ₚ files →
  NoDup (paths files) →
  anchor ∈ files →
  Filename anchor = kubeSysConfigPath →
  Load Y f m0 =
  match yaml_Unmarshal Y (Data anchor) emptyConfigurationObject with
  | Ok obj => ({| KubeSysConfig := Some obj; FileList := SortFiles files |}, true, None)
  | Err err => (m0, false, Some (ErrWrap err "failed to unmarshal cluster-config.yaml"))
  end.
Proof.
  intros Hf Hperm Hnd Hin Hname.
  assert (NoDup (paths fetched)) as Hnd' by (unfold paths; by rewrite Hperm).
  assert (anchor ∈ fetched) as Hin' by (by rewrite Hperm).
  unfold Load. rewrite Hf.
  case_decide as Hlen.
  { apply length_zero_iff_nil in Hlen. rewrite Hlen in Hin'.
    by apply elem_of_nil in Hin'. }
  rewrite (loadLoop_unique_anchor Y fetched anchor emptyConfigurationObject false
             Hnd' Hin' Hname).
  destruct (yaml_Unmarshal Y (Data anchor) emptyConfigurationObject) as [obj|err];
    [|done].
  simpl. do 3 f_equal. by apply SortFiles_order_independent.
Qed.

Lemma matchingFiles_match pattern (storage : gmap string string) :
  Forall (λ f, Is_true (globMatch pattern (Filename f))) (matchingFiles pattern storage).
Proof.
  unfold matchingFiles. apply Forall_fmap, Forall_forall.
  intros entry Hin. by apply list_elem_of_filter in Hin as [? _].
Qed.

(** C2, as the code has it. After a run of [Generate] that returns no
    error, the anchor object was serialized, and [Load] on a store
    written from the files of the run, enumerated in any order, reports
    [found = true] with no error and leaves in its receiver the file list
    and the anchor object of [Generate] exactly when the merged files have
    pairwise distinct paths directly under the output root and decoding
    the serialized anchor gives the anchor back. With such paths [Load]
    returns what decoding the serialized anchor gives: the file list of
    [Generate] with the decoded object, or the wrapped error and the
    receiver as it was. *)
Theorem Load_after_Generate order enum m p m' m0 :
  Generate T Y order m p = Ret (m', None) →
  ∃ obj data,
    KubeSysConfig m' = Some obj ∧
    yaml_Marshal Y obj = Ok data ∧
    (subUnitFilesValid p →
     Load Y (storageFetcher enum (writeFiles (FileList m') ∅)) m0 =
     match yaml_Unmarshal Y data emptyConfigurationObject with
     | Ok decoded =>
         ({| KubeSysConfig := Some decoded; FileList := FileList m' |}, true, None)
     | Err err =>
         (m0, false, Some (ErrWrap err "failed to unmarshal cluster-config.yaml"))
     end) ∧
    (Load Y (storageFetcher enum (writeFiles (FileList m') ∅)) m0 = (m', true, None)
     ↔ subUnitFilesValid p ∧ yamlRoundTrips Y obj).
Proof.
  intros HGen.
  pose proof (Generate_FileList_paths T Y order m p m' HGen) as Hpaths.
  apply Generate_Ret_inv in HGen as (icFile & _ & [H|H]).
  { by destruct H as (? & _ & ? & _). }
  destruct H as (data & td & assetData & Hdata & _ & HassetData & _ & ->).
  cbn [FileList KubeSysConfig] in *.
  set (merged := mergedFiles data (filesOfAssetData order assetData) p) in *.
  set (obj := kubeSysConfigOf (Data icFile)) in *.
  exists obj, data. split; [done|]. split; [done|].
  assert (subUnitFilesValid p →
          Load Y (storageFetcher enum (writeFiles (SortFiles merged) ∅)) m0 =
          match yaml_Unmarshal Y data emptyConfigurationObject with
          | Ok decoded =>
              ({| KubeSysConfig := Some decoded; FileList := SortFiles merged |},
               true, None)
          | Err err =>
              (m0, false, Some (ErrWrap err "failed to unmarshal cluster-config.yaml"))
          end) as Hfwd.
  { intros [Hdistinct Hroot].
    assert (NoDup (paths (SortFiles merged))) as Hnd by (by rewrite Hpaths).
    assert (Forall (λ f, Is_true (globMatch (filepath_Join manifestDir "*") (Filename f)))
              (SortFiles merged)) as Hall.
    { apply (Forall_fmap Filename
               (λ path, Is_true (globMatch (filepath_Join manifestDir "*") path))).
      fold (paths (SortFiles merged)). rewrite Hpaths. apply Forall_app. split.
      - apply fixedPaths_under_root.
      - by apply Forall_fmap. }
    rewrite (Load_listing_any (storageFetcher enum (writeFiles (SortFiles merged) ∅))
               (rangeOrder enum (matchingFiles (filepath_Join manifestDir "*")
                                   (writeFiles (SortFiles merged) ∅)))
               (SortFiles merged)
               {| Filename := kubeSysConfigPath; Data := data |} m0).
    - cbn [Data].
      rewrite (SortFiles_sorted_id (SortFiles merged)); [done|].
      by apply sorted_distinct_strict; [apply SortFiles_sorted|].
    - reflexivity.
    - rewrite rangeOrder_Permutation. by apply matchingFiles_written.
    - done.
    - rewrite SortFiles_Permutation. left.
    - reflexivity. }
  split; [done|]. split.
  - intros HLoad.
    assert (subUnitFilesValid p) as Hvalid.
    { apply Load_cases in HLoad
        as [[? _]|(_ & _ & fetched & cfg & Hf & _ & Heq)]; [done|].
      injection Hf as Hfetched. injection Heq as _ Heq.
      assert (merged ≡ₚ matchingFiles (filepath_Join manifestDir "*")
                          (writeFiles (SortFiles merged) ∅)) as Hperm.
      { transitivity fetched.
        - rewrite <- (SortFiles_Permutation merged), Heq. apply SortFiles_Permutation.
        - rewrite <- Hfetched. apply rangeOrder_Permutation. }
      split.
      - unfold subUnitPathsDistinct.
        rewrite <- (mergedFiles_paths T order p td assetData data HassetData).
        fold merged. unfold paths. rewrite Hperm. apply matchingFiles_NoDup.
      - unfold subUnitFilesUnderRoot, subUnitFiles.
        assert (Forall (λ f, Is_true (globMatch (filepath_Join manifestDir "*")
                                        (Filename f))) merged) as Hall.
        { rewrite Hperm. apply matchingFiles_match. }
        unfold merged, mergedFiles in Hall.
        apply Forall_app in Hall as [_ Hall]. by apply Forall_app in Hall as [_ Hall]. }
    split; [done|].
    rewrite (Hfwd Hvalid) in HLoad.
    intros data' Hdata'. rewrite Hdata in Hdata'. injection Hdata' as <-.
    destruct (yaml_Unmarshal Y data emptyConfigurationObject) as [decoded|err];
      [|done].
    by injection HLoad as ->.
  - intros [Hvalid Hrt]. by rewrite (Hfwd Hvalid), (Hrt data Hdata).
Qed.

End RoundTrip.

(** ** The properties on the sample inputs *)

(** C1 as stated fails: a template with an action that is not closed
    does not parse, [applyTemplateData] panics on it, and [Generate]
    panics with it instead of returning an error. *)
Lemma template_failure_is_a_panic :
  applyTemplateData miniTemplate "{{" (templateDataOf sampleParents [])
  = Panic (PanicError (ErrNew "template: template:1: unclosed action")) ∧
  Generate miniTemplate miniYaml [] emptyManifests (withKubeCloudConfig "{{" sampleParents)
  = Panic (PanicError (ErrNew "template: template:1: unclosed action")) ∧
  ¬ (∀ (T : TemplateLib) (data : string) (td : bootkubeTemplateData),
        returns (applyTemplateData T data td)).
Proof.
  split_and!.
  - vm_compute. reflexivity.
  - vm_compute. reflexivity.
  - intros H.
    destruct (H miniTemplate "{{" (templateDataOf sampleParents [])) as [out Hout].
    vm_compute in Hout. discriminate.
Qed.

Lemma template_failure_panics_witness :
  applyTemplateData miniTemplate "{{.Missing}}" (templateDataOf sampleParents [])
  = Panic (PanicError (ErrNew "template: can't evaluate field Missing")) ∧
  ∃ v, Generate miniTemplate miniYaml [] emptyManifests
         (withKubeCloudConfig "{{" sampleParents) = Panic v.
Proof.
  destruct (template_failure_panics miniTemplate miniYaml) as (_ & Hexec & _ & _ & HGen).
  split.
  - eapply Hexec; vm_compute; reflexivity.
  - eapply (HGen [] emptyManifests (withKubeCloudConfig "{{" sampleParents)).
    + reflexivity.
    + vm_compute. reflexivity.
    + vm_compute. reflexivity.
    + left.
    + vm_compute. reflexivity.
Defined.

Lemma sampleParents_valid : subUnitFilesValid sampleParents.
Proof. split; apply (bool_decide_unpack _); by vm_compute. Defined.

Lemma Load_after_Generate_witness :
  ∃ m',
    Generate miniTemplate miniYaml [3; 5; 7; 1; 2]%nat emptyManifests sampleParents
    = Ret (m', None) ∧
    Load miniYaml (storageFetcher [4; 4; 4; 1]%nat (writeFiles (FileList m') ∅))
         emptyManifests
    = (m', true, None).
Proof.
  edestruct (Load_after_Generate miniTemplate miniYaml [3; 5; 7; 1; 2]%nat
               [4; 4; 4; 1]%nat emptyManifests sampleParents)
    as (obj & data & Hobj & Hdata & _ & Hiff); [vm_compute; reflexivity|].
  eexists. split; [vm_compute; reflexivity|].
  apply Hiff. split; [exact sampleParents_valid|].
  injection Hobj as <-.
  intros data' Hdata'. vm_compute in Hdata'. injection Hdata' as <-.
  vm_compute. reflexivity.
Defined.

(** C2 as stated fails. When a sub-unit names its file as another merged
    file is named, the file list of [Generate] holds both files and the
    store written from it holds one: [Load] gives seventeen files back
    for eighteen. And with a codec that does not decode what it encoded,
    here an install configuration that holds the byte [ff], [Load]
    returns the decoding error and [found = false]. *)
Lemma Load_after_Generate_differs :
  (∃ m' m'',
      Generate miniTemplate miniYaml [] emptyManifests collidingParents = Ret (m', None) ∧
      Load miniYaml (storageFetcher [] (writeFiles (FileList m') ∅)) emptyManifests
      = (m'', true, None) ∧
      length (FileList m') = 18%nat ∧
      length (FileList m'') = 17%nat) ∧
  (∃ m',
      Generate miniTemplate textYaml [] emptyManifests binaryParents = Ret (m', None) ∧
      Load textYaml (storageFetcher [] (writeFiles (FileList m') ∅)) emptyManifests
      = (emptyManifests, false,
         Some (ErrWrap (ErrNew "yaml: invalid UTF-8")
                 "failed to unmarshal cluster-config.yaml"))) ∧
  ¬ (∀ (T : TemplateLib) (Y : YamlLib) order enum m p m' m0,
        Generate T Y order m p = Ret (m', None) →
        Load Y (storageFetcher enum (writeFiles (FileList m') ∅)) m0 = (m', true, None)).
Proof.
  split_and!.
  - do 2 eexists. split_and!; vm_compute; reflexivity.
  - eexists. split; vm_compute; reflexivity.
  - intros H.
    destruct (Generate miniTemplate miniYaml [] emptyManifests collidingParents)
      as [[m' [err|]]|v] eqn:HGen; [by vm_compute in HGen| |by vm_compute in HGen].
    specialize (H miniTemplate miniYaml [] [] emptyManifests collidingParents m'
                  emptyManifests HGen).
    vm_compute in HGen. injection HGen as <-.
    apply (f_equal (λ r, length (FileList r.1.1))) in H.
    vm_compute in H. discriminate.
Qed.

Lemma FileList_strictly_increasing_witness :
  (∃ m',
      Generate miniTemplate miniYaml [3; 5; 7; 1; 2]%nat emptyManifests sampleParents
      = Ret (m', None) ∧
      pathsStrictlyIncreasing (FileList m')) ∧
  (∃ m',
      Load miniYaml (storageFetcher [1; 0]%nat sampleStorage) emptyManifests
      = (m', true, None) ∧
      pathsStrictlyIncreasing (FileList m')).
Proof.
  destruct (FileList_strictly_increasing miniTemplate miniYaml) as (HGen & _ & HLoad).
  split.
  - edestruct (HGen [3; 5; 7; 1; 2]%nat emptyManifests sampleParents) as [_ Hiff];
      [vm_compute; reflexivity|].
    eexists. split; [vm_compute; reflexivity|].
    apply Hiff. exact (proj1 sampleParents_valid).
  - eexists. split; [vm_compute; reflexivity|].
    apply (HLoad [1; 0]%nat sampleStorage emptyManifests).
    vm_compute. reflexivity.
Defined.

(** C3 as stated fails. When a sub-unit names its file as another merged
    file is named, [Generate] returns no error and its file list, ordered
    by path, holds that path twice: the paths are not strictly
    increasing. *)
Lemma FileList_repeats_a_path :
  ∃ m',
    Generate miniTemplate miniYaml [] emptyManifests collidingParents = Ret (m', None) ∧
    filter (λ path, path = "manifests/pull.json") (paths (FileList m'))
    = ["manifests/pull.json"; "manifests/pull.json"] ∧
    pathsSorted (FileList m') ∧
    ¬ pathsStrictlyIncreasing (FileList m').
Proof.
  eexists. split; [vm_compute; reflexivity|]. split_and!.
  - vm_compute. reflexivity.
  - apply (bool_decide_unpack _). by vm_compute.
  - intros Hstrict. apply strict_paths_NoDup in Hstrict. revert Hstrict.
    apply (bool_decide_unpack _). by vm_compute.
Qed.

Lemma Load_not_found_or_parse_error_witness :
  Load miniYaml strayFetcher emptyManifests = (emptyManifests, false, None) ∧
  Load miniYaml corruptFetcher emptyManifests
  = (emptyManifests, false,
     Some (ErrWrap (ErrNew "yaml: unmarshal errors")
             "failed to unmarshal cluster-config.yaml")).
Proof.
  split.
  - eapply (Load_not_found_or_parse_error miniYaml strayFetcher); [reflexivity|].
    apply (bool_decide_unpack _). by vm_compute.
  - eapply (Load_not_found_or_parse_error miniYaml corruptFetcher);
      [reflexivity|reflexivity| |reflexivity|vm_compute; reflexivity].
    apply (bool_decide_unpack _). by vm_compute.
Defined.

Lemma Generate_anchor_file_witness :
  (∃ m' data,
      Generate miniTemplate miniYaml [] emptyManifests sampleParents = Ret (m', None) ∧
      {| Filename := "manifests/cluster-config.yaml"; Data := data |} ∈ FileList m' ∧
      yaml_Marshal miniYaml
        (configMap "kube-system" "cluster-config-v1"
           {[ "install-config" := "baseDomain: example.com" ]}) = Ok data) ∧
  Generate miniTemplate failingYaml [] emptyManifests
    (withKubeCloudConfig "{{" sampleParents)
  = Ret ({| KubeSysConfig :=
              Some (configMap "kube-system" "cluster-config-v1"
                      {[ "install-config" := "baseDomain: example.com" ]});
            FileList := [] |},
         Some (ErrWrap (ErrNew "yaml: marshal error")
                 "failed to create kube-system/cluster-config-v1 configmap")).
Proof.
  split.
  - destruct (Generate_anchor_file miniTemplate miniYaml [] emptyManifests sampleParents)
      as [HOk _].
    eexists. 
    destruct (HOk _ ltac:(vm_compute; reflexivity))
      as (icFile & data & HicFile & Hdata & _ & Hin).
    injection HicFile as <-.
    exists data. split_and!; [reflexivity|exact Hin|exact Hdata].
  - destruct (Generate_anchor_file miniTemplate failingYaml [] emptyManifests
                (withKubeCloudConfig "{{" sampleParents)) as [_ HErr].
    apply (HErr _ _ eq_refl eq_refl).
Defined.

Lemma Generate_deterministic_witness :
  generateBootKubeManifests miniTemplate [] sampleParents
  ≠ generateBootKubeManifests miniTemplate [3; 5; 7; 1; 2]%nat sampleParents ∧
  Generate miniTemplate miniYaml [] emptyManifests sampleParents
  = Generate miniTemplate miniYaml [3; 5; 7; 1; 2]%nat emptyManifests sampleParents ∧
  GenerateWith pivotSort miniTemplate miniYaml [] emptyManifests sampleParents
  = GenerateWith pivotSort miniTemplate miniYaml [3; 5; 7; 1; 2]%nat emptyManifests
      sampleParents ∧
  sameUpToTies
    (GenerateWith pivotSort miniTemplate miniYaml [] emptyManifests collidingParents)
    (GenerateWith pivotSort miniTemplate miniYaml [10]%nat emptyManifests
       collidingParents).
Proof.
  split; [vm_compute; discriminate|].
  destruct (Generate_deterministic miniTemplate miniYaml pivotSort []
              [3; 5; 7; 1; 2]%nat emptyManifests sampleParents pivotSort_sortsByPath)
    as (_ & _ & Hdistinct).
  destruct (Hdistinct (proj1 sampleParents_valid)) as [HWith HGen].
  split; [exact HGen|]. split; [exact HWith|].
  exact (proj1 (Generate_deterministic miniTemplate miniYaml pivotSort [] [10]%nat
                  emptyManifests collidingParents pivotSort_sortsByPath)).
Defined.

(** C9 as stated fails. When a sub-unit names its file as another merged
    file is named, a sort by path can arrange the two files either way,
    and the order in which [assetData] is visited decides: with the sort
    [pivotSort], two runs on the same input that visit the map in two
    orders return two different file lists. *)
Lemma Generate_order_reaches_output :
  sortsByPath pivotSort ∧
  (∃ m1 m2,
      GenerateWith pivotSort miniTemplate miniYaml [] emptyManifests collidingParents
      = Ret (m1, None) ∧
      GenerateWith pivotSort miniTemplate miniYaml [10]%nat emptyManifests
        collidingParents
      = Ret (m2, None) ∧
      Data <$> filter (λ f, Filename f = "manifests/pull.json") (FileList m1)
      = ["ingress"; "e30="] ∧
      Data <$> filter (λ f, Filename f = "manifests/pull.json") (FileList m2)
      = ["e30="; "ingress"]) ∧
  GenerateWith pivotSort miniTemplate miniYaml [] emptyManifests collidingParents
  ≠ GenerateWith pivotSort miniTemplate miniYaml [10]%nat emptyManifests
      collidingParents ∧
  ¬ (∀ sort (T : TemplateLib) (Y : YamlLib) order1 order2 m p,
        sortsByPath sort →
        GenerateWith sort T Y order1 m p = GenerateWith sort T Y order2 m p).
Proof.
  assert (GenerateWith pivotSort miniTemplate miniYaml [] emptyManifests collidingParents
          ≠ GenerateWith pivotSort miniTemplate miniYaml [10]%nat emptyManifests
              collidingParents) as Hne.
  { vm_compute. discriminate. }
  split_and!.
  - exact pivotSort_sortsByPath.
  - do 2 eexists. split_and!; vm_compute; reflexivity.
  - exact Hne.
  - intros H. apply Hne, H, pivotSort_sortsByPath.
Qed.

Lemma Load_atomic_witness :
  (Load miniYaml corruptFetcher loadedManifests).1.1 = loadedManifests ∧
  (Load miniYaml strayFetcher loadedManifests).1.1 = loadedManifests.
Proof.
  split.
  - destruct (Load miniYaml corruptFetcher loadedManifests) as [[m' found] err] eqn:HLoad.
    destruct (Load_atomic miniYaml corruptFetcher loadedManifests m' found err HLoad)
      as [Hsame _].
    apply Hsame. right. vm_compute in HLoad. injection HLoad as _ _ <-. discriminate.
  - destruct (Load miniYaml strayFetcher loadedManifests) as [[m' found] err] eqn:HLoad.
    destruct (Load_atomic miniYaml strayFetcher loadedManifests m' found err HLoad)
      as [Hsame _].
    apply Hsame. left. vm_compute in HLoad. by injection HLoad as _ <- _.
Defined.

(** * Further properties of operators.go *)

(** ** [indent] and [add] *)

Lemma append_cons c s1 s2 : String c s1 +:+ s2 = String c (s1 +:+ s2).
Proof. reflexivity. Qed.

Lemma append_empty_l s : "" +:+ s = s.
Proof. reflexivity. Qed.

Lemma append_empty_r s : s +:+ "" = s.
Proof. induction s as [|c s IH]; [done|]. by rewrite append_cons, IH. Qed.

Lemma append_assoc s1 s2 s3 : (s1 +:+ s2) +:+ s3 = s1 +:+ (s2 +:+ s3).
Proof. induction s1 as [|c s1 IH]; [done|]. by rewrite !append_cons, IH. Qed.

Lemma length_append s1 s2 :
  String.length (s1 +:+ s2) = (String.length s1 + String.length s2)%nat.
Proof.
  induction s1 as [|c s1 IH]; [done|].
  rewrite append_cons. simpl. by rewrite IH.
Qed.

Lemma repeatString_S s k : repeatString s (S k) = s +:+ repeatString s k.
Proof. reflexivity. Qed.

Lemma spaces_add a b :
  repeatString " " (a + b) = repeatString " " a +:+ repeatString " " b.
Proof.
  induction a as [|a IH]; [done|].
  change (S a + b)%nat with (S (a + b)).
  by rewrite !repeatString_S, IH, append_assoc.
Qed.

Lemma spaces_length k : String.length (repeatString " " k) = k.
Proof.
  induction k as [|k IH]; [done|].
  rewrite repeatString_S, length_append, IH. reflexivity.
Qed.

Lemma indentSpec_cons n c rest :
  indentSpec n (String c rest) =
  if Ascii.eqb c newlineChar
  then String newlineChar (repeatString " " n +:+ indentSpec n rest)
  else String c (indentSpec n rest).
Proof. reflexivity. Qed.

Lemma indentSpec_app n a b :
  indentSpec n (a +:+ b) = indentSpec n a +:+ indentSpec n b.
Proof.
  induction a as [|c a IH]; [done|].
  rewrite append_cons, !indentSpec_cons, IH.
  destruct (Ascii.eqb c newlineChar); by rewrite append_cons, ?append_assoc.
Qed.

Lemma indentSpec_spaces n k :
  indentSpec n (repeatString " " k) = repeatString " " k.
Proof.
  induction k as [|k IH]; [done|].
  rewrite repeatString_S, indentSpec_app, IH. reflexivity.
Qed.

Lemma indentSpec_compose n k text :
  indentSpec n (indentSpec k text) = indentSpec (n + k) text.
Proof.
  induction text as [|c text IH]; [done|].
  rewrite !indentSpec_cons.
  destruct (Ascii.eqb c newlineChar) eqn:E.
  - rewrite indentSpec_cons, Ascii.eqb_refl.
    by rewrite indentSpec_app, indentSpec_spaces, IH, spaces_add, append_assoc.
  - by rewrite indentSpec_cons, E, IH.
Qed.

Lemma indentSpec_no_newline n text :
  countNewlines text = 0%nat → indentSpec n text = text.
Proof.
  induction text as [|c text IH]; [done|].
  cbn [countNewlines]. rewrite indentSpec_cons.
  destruct (Ascii.eqb c newlineChar); [done|].
  intros H. by rewrite IH.
Qed.

Lemma indentSpec_zero text : indentSpec 0 text = text.
Proof.
  induction text as [|c text IH]; [done|].
  rewrite indentSpec_cons, IH. cbn [repeatString]. rewrite append_empty_l.
  destruct (Ascii.eqb c newlineChar) eqn:E; [|done].
  by apply Ascii.eqb_eq in E as ->.
Qed.

Lemma countNewlines_app a b :
  countNewlines (a +:+ b) = (countNewlines a + countNewlines b)%nat.
Proof.
  induction a as [|c a IH]; [done|].
  rewrite append_cons. cbn [countNewlines]. rewrite IH. lia.
Qed.

Lemma countNewlines_spaces k : countNewlines (repeatString " " k) = 0%nat.
Proof.
  induction k as [|k IH]; [done|].
  by rewrite repeatString_S, countNewlines_app, IH.
Qed.

Lemma indentSpec_measure n text :
  String.length (indentSpec n text)
  = (String.length text + n * countNewlines text)%nat ∧
  countNewlines (indentSpec n text) = countNewlines text.
Proof.
  induction text as [|c text [IHlen IHcount]]; [split; [simpl; lia|done]|].
  rewrite indentSpec_cons. cbn [countNewlines String.length].
  destruct (Ascii.eqb c newlineChar) eqn:E.
  - cbn [String.length countNewlines]. rewrite Ascii.eqb_refl.
    rewrite length_append, countNewlines_app, spaces_length,
      countNewlines_spaces, IHlen, IHcount. split; lia.
  - cbn [String.length countNewlines]. rewrite E, IHlen, IHcount. split; lia.
Qed.

Lemma indent_Ret n text :
  0 ≤ n → indent n text = Ret (indentSpec (Z.to_nat n) text).
Proof.
  intros Hn. rewrite <- (Z2Nat.id n) at 1 by done. apply indent_refines_spec.
Qed.

(** X1. [indent] with a negative indention panics, whatever the text,
    even a text with no newline to replace: [strings.Repeat] is called
    before the text is looked at. *)
Theorem indent_panics_below_zero (n : Z) (text : string) :
  n < 0 →
  indent n text = Panic (RuntimeError "strings: negative Repeat count").
Proof.
  intros Hn. unfold indent, strings_Repeat.
  by destruct (Z.ltb_spec n 0); [|lia].
Qed.

Lemma indent_panics_below_zero_witness :
  indent (-3) "no newline here"
  = Panic (RuntimeError "strings: negative Repeat count").
Proof. apply indent_panics_below_zero. lia. Defined.

(** X2. [indent] leaves a text unchanged when the indention is zero and
    when the text has no newline: the first line is never indented. *)
Theorem indent_identity (n : Z) (text : string) :
  0 ≤ n →
  n = 0 ∨ countNewlines text = 0%nat →
  indent n text = Ret text.
Proof.
  intros Hn Hcase. rewrite indent_Ret by done. f_equal.
  destruct Hcase as [->|Hnone].
  - apply indentSpec_zero.
  - by apply indentSpec_no_newline.
Qed.

Lemma indent_identity_witness :
  indent 4 "-----BEGIN CERTIFICATE-----" = Ret "-----BEGIN CERTIFICATE-----" ∧
  indent 0 ("a" +:+ nl +:+ "b") = Ret ("a" +:+ nl +:+ "b").
Proof.
  split.
  - apply indent_identity; [lia|right; reflexivity].
  - apply indent_identity; [lia|left; reflexivity].
Defined.

(** X3. [indent] distributes over concatenation: indenting a text made
    of two parts is indenting each part and joining the results. *)
Theorem indent_concat (n : Z) (a b : string) :
  0 ≤ n →
  indent n (a +:+ b) = (x ←! indent n a; y ←! indent n b; Ret (x +:+ y)).
Proof.
  intros Hn. rewrite !indent_Ret by done. simpl. by rewrite indentSpec_app.
Qed.

Lemma indent_concat_witness :
  indent 2 (("a" +:+ nl) +:+ ("b" +:+ nl +:+ "c"))
  = (x ←! indent 2 ("a" +:+ nl); y ←! indent 2 ("b" +:+ nl +:+ "c"); Ret (x +:+ y)).
Proof. apply indent_concat. lia. Defined.

(** X4. Indenting twice is indenting once by the sum: [indent n] after
    [indent k] is [indent (n + k)]. *)
Theorem indent_twice (n k : Z) (text : string) :
  0 ≤ n →
  0 ≤ k →
  (once ←! indent k text; indent n once) = indent (n + k) text.
Proof.
  intros Hn Hk. rewrite !indent_Ret by lia. simpl. rewrite indent_Ret by done.
  by rewrite indentSpec_compose, Z2Nat.inj_add.
Qed.

Lemma indent_twice_witness :
  (once ←! indent 2 ("a" +:+ nl +:+ "b"); indent 3 once)
  = indent (3 + 2) ("a" +:+ nl +:+ "b").
Proof. apply indent_twice; lia. Defined.

(** X5. [indent n] adds [n] bytes for every newline of the text and no
    newline: the result has the length of the text plus [n] times its
    number of newlines, and as many lines as the text. *)
Theorem indent_length (n : Z) (text : string) :
  0 ≤ n →
  ∃ out,
    indent n text = Ret out ∧
    Z.of_nat (String.length out)
    = Z.of_nat (String.length text) + n * Z.of_nat (countNewlines text) ∧
    countNewlines out = countNewlines text.
Proof.
  intros Hn. rewrite indent_Ret by done. eexists. split; [reflexivity|].
  destruct (indentSpec_measure (Z.to_nat n) text) as [Hlen Hcount].
  split; [|done]. rewrite Hlen. lia.
Qed.

Lemma indent_length_witness :
  ∃ out,
    indent 2 ("a" +:+ nl +:+ "b" +:+ nl) = Ret out ∧
    Z.of_nat (String.length out) = 4 + 2 * 2 ∧
    countNewlines out = 2%nat.
Proof. apply (indent_length 2 ("a" +:+ nl +:+ "b" +:+ nl)). lia. Defined.

Lemma wrapInt_mod a c : (wrapInt a + c) mod 2 ^ 64 = (a + c) mod 2 ^ 64.
Proof.
  unfold wrapInt.
  replace ((a + 2 ^ 63) mod 2 ^ 64 - 2 ^ 63 + c)
    with ((a + 2 ^ 63) mod 2 ^ 64 + (c - 2 ^ 63)) by lia.
  rewrite Z.add_mod_idemp_l by lia. f_equal. lia.
Qed.

Lemma wrapInt_ext a b : a mod 2 ^ 64 = b mod 2 ^ 64 → wrapInt a = wrapInt b.
Proof.
  intros H. unfold wrapInt.
  by rewrite <- (Z.add_mod_idemp_l a), H, Z.add_mod_idemp_l by lia.
Qed.

(** X6. [add] is the addition of Go's [int]: on [int]s it is commutative
    and associative, zero is neutral, the result is an [int] that differs
    from the sum of the integers by a multiple of [2^64]; at the largest
    [int] it wraps to the smallest. *)
Theorem add_wraps_around (i j k : Z) :
  inInt i →
  add i j = add j i ∧
  add (add i j) k = add i (add j k) ∧
  add i 0 = i ∧
  inInt (add i j) ∧
  (add i j - (i + j)) mod 2 ^ 64 = 0 ∧
  add (2 ^ 63 - 1) 1 = - 2 ^ 63.
Proof.
  intros Hi. unfold add. split_and!.
  - by rewrite (Z.add_comm i j).
  - apply wrapInt_ext. rewrite wrapInt_mod.
    rewrite (Z.add_comm i (wrapInt (j + k))), wrapInt_mod. f_equal. lia.
  - rewrite Z.add_0_r. by apply wrapInt_id.
  - apply wrapInt_inInt.
  - pose proof (wrapInt_mod (i + j) 0) as H. rewrite !Z.add_0_r in H.
    rewrite Zminus_mod, H, Z.sub_diag. reflexivity.
  - reflexivity.
Qed.

Lemma add_wraps_around_witness :
  add (2 ^ 63 - 1) 1 = add 1 (2 ^ 63 - 1) ∧
  add (add (2 ^ 63 - 1) 1) (-1) = add (2 ^ 63 - 1) (add 1 (-1)) ∧
  add (2 ^ 63 - 1) 0 = 2 ^ 63 - 1 ∧
  inInt (add (2 ^ 63 - 1) 1) ∧
  (add (2 ^ 63 - 1) 1 - (2 ^ 63 - 1 + 1)) mod 2 ^ 64 = 0 ∧
  add (2 ^ 63 - 1) 1 = - 2 ^ 63.
Proof. apply (add_wraps_around (2 ^ 63 - 1) 1 (-1)). unfold inInt. lia. Defined.

(** ** The encoded fields and the hostnames of the template context *)

Lemma encodeSextet_not_newline val shift :
  Ascii.eqb (encodeSextet val shift) newlineChar = false.
Proof.
  unfold encodeSextet.
  generalize (N.to_nat (N.land (N.shiftr val shift) 63)). intros k.
  do 64 (destruct k as [|k]; [reflexivity|]). reflexivity.
Qed.

Lemma base64_Encode_no_newline s : countNewlines (base64_Encode s) = 0%nat.
Proof.
  assert (∀ n s, (String.length s ≤ n)%nat →
                 countNewlines (base64_Encode s) = 0%nat) as Hall.
  { clear s. induction n as [|n IH]; intros s Hn.
    - destruct s; [reflexivity|simpl in Hn; lia].
    - destruct s as [|a [|b [|c rest]]];
        cbn [base64_Encode countNewlines String.length] in *;
        rewrite ?encodeSextet_not_newline; [reflexivity..|].
      rewrite IH by lia. reflexivity. }
  by apply (Hall (String.length s)).
Qed.

(** X7. What [base64.StdEncoding.EncodeToString] returns is one line: it
    has no newline and its length is a multiple of four, so [indent]
    leaves an encoded field of the template context unchanged. *)
Theorem encoded_field_single_line (src : string) (n : Z) :
  0 ≤ n →
  countNewlines (base64_StdEncoding_EncodeToString src) = 0%nat ∧
  (String.length (base64_StdEncoding_EncodeToString src) mod 4 = 0)%nat ∧
  indent n (base64_StdEncoding_EncodeToString src)
  = Ret (base64_StdEncoding_EncodeToString src).
Proof.
  intros Hn. split_and!.
  - apply base64_Encode_no_newline.
  - rewrite base64_Encode_length, Nat.mul_comm. apply Nat.Div0.mod_mul.
  - rewrite indent_Ret by done. f_equal.
    apply indentSpec_no_newline, base64_Encode_no_newline.
Qed.

Lemma encoded_field_single_line_witness :
  countNewlines (base64_StdEncoding_EncodeToString ("a" +:+ nl +:+ "b")) = 0%nat ∧
  (String.length (base64_StdEncoding_EncodeToString ("a" +:+ nl +:+ "b")) mod 4 = 0)%nat ∧
  indent 6 (base64_StdEncoding_EncodeToString ("a" +:+ nl +:+ "b"))
  = Ret (base64_StdEncoding_EncodeToString ("a" +:+ nl +:+ "b")).
Proof. apply encoded_field_single_line. lia. Defined.

Lemma Z_to_int_proper z : Z.to_int z ≠ Decimal.Pos Decimal.Nil ∧
                          Z.to_int z ≠ Decimal.Neg Decimal.Nil.
Proof.
  destruct z as [|p|p]; simpl; split; try discriminate;
    intros [= H]; by apply DecimalPos.Unsigned.to_uint_nonnil in H.
Qed.

(** The decimal rendering of [%d] tells integers apart. *)
Lemma formatInt_inj a b : formatInt a = formatInt b → a = b.
Proof.
  unfold formatInt. intros H. apply DecimalZ.to_int_inj.
  apply (f_equal NilZero.int_of_string) in H.
  destruct (Z_to_int_proper a), (Z_to_int_proper b).
  rewrite !NilZero.isi in H by done. by injection H.
Qed.

Lemma Sprintf_etcd_inj name a b : Sprintf_etcd name a = Sprintf_etcd name b → a = b.
Proof.
  unfold Sprintf_etcd. intros H.
  apply (inj (String.app name)), (inj (String.app "-etcd-")) in H.
  by apply formatInt_inj.
Qed.

(** X8. The etcd endpoint hostnames of the template context are pairwise
    distinct: no two masters get the same hostname. *)
Theorem etcd_hostnames_distinct (p : Parents) (td : bootkubeTemplateData) :
  buildTemplateData p = Ret td →
  NoDup (EtcdEndpointHostnames td).
Proof.
  unfold buildTemplateData, etcdEndpointHostnames. intros H.
  apply bindO_Ret_inv in H as (hs & Hhs & [= <-]).
  apply bindO_Ret_inv in Hhs as (hs0 & Hhs0 & [= <-]). simpl.
  apply NoDup_alt. intros i j x Hi Hj.
  pose proof (lookup_lt_Some _ _ _ Hi) as Hilt.
  pose proof (lookup_lt_Some _ _ _ Hj) as Hjlt.
  rewrite fillHostnames_length in Hilt, Hjlt.
  rewrite fillHostnames_lookup in Hi, Hj by done.
  injection Hi as <-. injection Hj as Heq.
  apply Sprintf_etcd_inj in Heq. lia.
Qed.

Lemma etcd_hostnames_distinct_witness :
  NoDup ["demo-etcd-0"; "demo-etcd-1"; "demo-etcd-2"].
Proof.
  exact (etcd_hostnames_distinct sampleParents
           (templateDataOf sampleParents ["demo-etcd-0"; "demo-etcd-1"; "demo-etcd-2"])
           eq_refl).
Defined.

(** ** [Dependencies] *)

(** X9. Every asset that [Generate] and [generateBootKubeManifests]
    fetch from the parents is declared by [Dependencies], which names no
    asset twice; the two declared assets that are never fetched are the
    ingress and the kubelet certificates. *)
Theorem Dependencies_cover_fetched :
  fetchedByGenerate ⊆ Dependencies ∧
  fetchedByBootKube ⊆ Dependencies ∧
  NoDup Dependencies ∧
  filter (λ a, a ∉ fetchedByGenerate ++ fetchedByBootKube) Dependencies
  = [AssetIngressCertKey; AssetKubeletCertKey].
Proof.
  split_and!.
  - apply (bool_decide_unpack _). by vm_compute.
  - apply (bool_decide_unpack _). by vm_compute.
  - apply (bool_decide_unpack _). by vm_compute.
  - by vm_compute.
Qed.

(** ** What [Generate] produces *)

Section GenerateContents.
Context (T : TemplateLib) (Y : YamlLib).

(** Every entry of the literal is in the map, under its key. *)
Lemma assetDataOf_lookup p td assetData name src :
  assetDataOf T p td = Ret assetData →
  (name, src) ∈ assetSources p →
  ∃ data,
    evalEntry T td (name, src) = Ret (name, data) ∧
    assetData !! name = Some data.
Proof.
  unfold assetDataOf. intros H.
  apply bindO_Ret_inv in H as (entries & Hentries & [= <-]).
  apply evalAll_Ret_inv in Hentries.
  assert (entries.*1 = assetNames) as Hnames.
  { rewrite <- (assetSources_names p).
    induction Hentries as [|a b l bs Hab _ IH]; simpl; [done|].
    f_equal; [|done]. by apply (evalEntry_name T) in Hab. }
  intros Hin. apply list_elem_of_lookup in Hin as [i Hi].
  destruct (Forall2_lookup_l _ _ _ _ _ Hentries Hi) as ([name' data] & Hr & Heval).
  pose proof (evalEntry_name T _ _ _ Heval) as Hname. simpl in Hname. subst name'.
  exists data. split; [done|].
  apply elem_of_list_to_map_1.
  - rewrite Hnames. apply assetNames_NoDup.
  - apply list_elem_of_lookup. eauto.
Qed.

Lemma filesOfAssetData_elem order (assetData : gmap string string) name data :
  assetData !! name = Some data →
  {| Filename := filepath_Join manifestDir name; Data := data |}
    ∈ filesOfAssetData order assetData.
Proof.
  intros H. unfold filesOfAssetData, rangeMap.
  apply (list_elem_of_fmap_2
           (λ entry : string * string,
              {| Filename := filepath_Join manifestDir entry.1; Data := entry.2 |})
           _ (name, data)).
  rewrite rangeOrder_Permutation. by apply elem_of_map_to_list.
Qed.

Lemma generateBootKubeManifests_Ret_inv order p files :
  generateBootKubeManifests T order p = Ret files →
  ∃ td assetData,
    buildTemplateData p = Ret td ∧
    assetDataOf T p td = Ret assetData ∧
    files = filesOfAssetData order assetData.
Proof.
  unfold generateBootKubeManifests. intros H.
  apply bindO_Ret_inv in H as (td & Htd & H).
  apply bindO_Ret_inv in H as (assetData & HassetData & [= <-]).
  by exists td, assetData.
Qed.

Lemma anchor_not_fixed_asset : kubeSysConfigPath ∉ filepath_Join manifestDir <$> assetNames.
Proof. apply (bool_decide_unpack _). by vm_compute. Qed.

Lemma assetPaths_NoDup : NoDup (filepath_Join manifestDir <$> assetNames).
Proof. apply (bool_decide_unpack _). by vm_compute. Qed.

(** X10. When [generateBootKubeManifests] returns, it returns thirteen
    files, one for each key of [assetData], each at [manifests/<key>]:
    the paths are pairwise distinct and none is the anchor path, whatever
    the order in which the map was visited. *)
Theorem generateBootKubeManifests_thirteen_files order p files :
  generateBootKubeManifests T order p = Ret files →
  length files = 13%nat ∧
  paths files ≡ₚ filepath_Join manifestDir <$> assetNames ∧
  NoDup (paths files) ∧
  kubeSysConfigPath ∉ paths files.
Proof.
  intros H.
  apply generateBootKubeManifests_Ret_inv in H as (td & assetData & _ & HassetData & ->).
  pose proof (filesOfAssetData_paths T order p td assetData HassetData) as Hpaths.
  split_and!.
  - apply Permutation_length in Hpaths. unfold paths in Hpaths.
    by rewrite length_fmap in Hpaths.
  - done.
  - rewrite Hpaths. apply assetPaths_NoDup.
  - rewrite Hpaths. apply anchor_not_fixed_asset.
Qed.


(** X11. After a run of [Generate] that returns no error the file list
    holds, in some order, the anchor file, the thirteen files of
    [generateBootKubeManifests] and every file of the four sub-units,
    each as it was given: fourteen files more than the sub-units
    brought, none dropped and none changed. *)
Theorem Generate_file_inventory order m p m' :
  Generate T Y order m p = Ret (m', None) →
  ∃ data bootkube,
    generateBootKubeManifests T order p = Ret bootkube ∧
    FileList m' ≡ₚ mergedFiles data bootkube p ∧
    length (FileList m')
    = (14 + length (ingress p) + length (dns p) + length (network p)
       + length (infra p))%nat ∧
    (∀ f, f ∈ ingress p ++ dns p ++ network p ++ infra p → f ∈ FileList m').
Proof.
  intros H. apply Generate_Ret_inv in H as (icFile & _ & [H|H]).
  { by destruct H as (? & _ & ? & _). }
  destruct H as (data & td & assetData & _ & Htd & HassetData & _ & ->).
  exists data, (filesOfAssetData order assetData).
  cbn [FileList]. split_and!.
  - unfold generateBootKubeManifests. rewrite Htd. simpl. by rewrite HassetData.
  - apply SortFiles_Permutation.
  - rewrite SortFiles_Permutation. unfold mergedFiles.
    pose proof (filesOfAssetData_paths T order p td assetData HassetData) as Hpaths.
    apply Permutation_length in Hpaths. unfold paths in Hpaths.
    rewrite !length_fmap in Hpaths.
    rewrite !length_app, Hpaths. simpl. lia.
  - intros f Hf. rewrite SortFiles_Permutation. unfold mergedFiles.
    apply elem_of_app. right. apply elem_of_app. by right.
Qed.

(** X12. After a run of [Generate] that returns no error, each of the
    four copied manifests is in the file list at [manifests/<key>] with
    the bytes of the first file of its asset, unchanged, and each of the
    nine templated manifests is there with what [Execute] wrote for the
    parsed first file of its asset against the template context of the
    run. *)
Theorem Generate_manifest_contents order m p m' :
  Generate T Y order m p = Ret (m', None) →
  ∃ td,
    buildTemplateData p = Ret td ∧
    ∀ name src,
      (name, src) ∈ assetSources p →
      match src with
      | Copied files =>
          ∃ f, firstFile files = Ret f ∧
               {| Filename := filepath_Join manifestDir name; Data := Data f |}
                 ∈ FileList m'
      | Templated files =>
          ∃ f t out,
            firstFile files = Ret f ∧
            template_Parse T customTmplFuncs (Data f) = Ok t ∧
            template_Execute T t td = Ok out ∧
            {| Filename := filepath_Join manifestDir name; Data := out |}
              ∈ FileList m'
      end.
Proof.
  intros H. apply Generate_Ret_inv in H as (icFile & _ & [H|H]).
  { by destruct H as (? & _ & ? & _). }
  destruct H as (data & td & assetData & _ & Htd & HassetData & _ & ->).
  exists td. split; [done|]. intros name src Hin.
  destruct (assetDataOf_lookup p td assetData name src HassetData Hin)
    as (out & Heval & Hlookup).
  assert ({| Filename := filepath_Join manifestDir name; Data := out |}
            ∈ SortFiles (mergedFiles data (filesOfAssetData order assetData) p)) as Hfile.
  { rewrite SortFiles_Permutation. unfold mergedFiles.
    apply elem_of_app. right. apply elem_of_app. left.
    by apply filesOfAssetData_elem. }
  unfold evalEntry in Heval. simpl in Heval.
  apply bindO_Ret_inv in Heval as (out' & Hout & [= <-]).
  destruct src as [files|files]; cbn [FileList].
  - unfold renderFirst in Hout.
    apply bindO_Ret_inv in Hout as (f & Hf & Hrender).
    apply applyTemplateData_Ret_inv in Hrender as (t & Hparse & Hexec).
    by exists f, t, out'.
  - unfold copyFirst in Hout.
    apply bindO_Ret_inv in Hout as (f & Hf & [= <-]).
    by exists f.
Qed.

(** X13. [Generate] indexes the first file of the install configuration
    and of each of the thirteen manifest assets without checking that
    there is one: with no install configuration file it panics with an
    index out of range before anything else happens; with a negative
    master count it panics in [make]; and when one of the thirteen assets
    has no file, a run that got as far as the map literal panics. In none
    of these cases does it return, with or without an error. *)
Theorem Generate_panics_without_files order m p :
  (InstallConfig_Files (installConfig p) = [] →
   Generate T Y order m p
   = Panic (RuntimeError "index out of range [0] with length 0")) ∧
  (∀ icFile data,
      firstFile (InstallConfig_Files (installConfig p)) = Ret icFile →
      yaml_Marshal Y (kubeSysConfigOf (Data icFile)) = Ok data →
      MasterCount (Config (installConfig p)) < 0 →
      Generate T Y order m p = Panic (RuntimeError "makeslice: len out of range")) ∧
  (∀ icFile data td name src,
      firstFile (InstallConfig_Files (installConfig p)) = Ret icFile →
      yaml_Marshal Y (kubeSysConfigOf (Data icFile)) = Ok data →
      buildTemplateData p = Ret td →
      (name, src) ∈ assetSources p →
      src = Templated [] ∨ src = Copied [] →
      ∃ v, Generate T Y order m p = Panic v).
Proof.
  split_and!.
  - intros Hnone. unfold Generate. by rewrite Hnone.
  - intros icFile data HicFile Hdata Hneg.
    unfold Generate. rewrite HicFile. simpl. rewrite Hdata.
    unfold generateBootKubeManifests, buildTemplateData, etcdEndpointHostnames,
      makeStrings.
    by destruct (Z.ltb_spec (MasterCount (Config (installConfig p))) 0); [|lia].
  - intros icFile data td name src HicFile Hdata Htd Hin Hsrc.
    unfold Generate. rewrite HicFile. simpl. rewrite Hdata.
    unfold generateBootKubeManifests. rewrite Htd. simpl.
    unfold assetDataOf.
    destruct (evalAll_Panic (evalEntry T td) (assetSources p) (name, src)
                (RuntimeError "index out of range [0] with length 0") Hin) as [v Hv].
    { by destruct Hsrc as [-> | ->]. }
    rewrite Hv. simpl. eauto.
Qed.
End GenerateContents.
Lemma generateBootKubeManifests_thirteen_files_witness :
  ∃ files,
    generateBootKubeManifests miniTemplate [3; 5; 7; 1; 2]%nat sampleParents = Ret files ∧
    length files = 13%nat ∧
    NoDup (paths files).
Proof.
  eexists. split; [vm_compute; reflexivity|].
  destruct (generateBootKubeManifests_thirteen_files miniTemplate
              [3; 5; 7; 1; 2]%nat sampleParents _
              ltac:(vm_compute; reflexivity)) as (Hlen & _ & Hnd & _).
  split; [exact Hlen|exact Hnd].
Defined.

Lemma Generate_file_inventory_witness :
  ∃ m',
    Generate miniTemplate miniYaml [3; 5; 7; 1; 2]%nat loadedManifests sampleParents
    = Ret (m', None) ∧
    length (FileList m') = 18%nat ∧
    {| Filename := "manifests/cluster-dns-02-config.yml"; Data := "dns" |} ∈ FileList m'.
Proof.
  eexists. split; [vm_compute; reflexivity|].
  destruct (Generate_file_inventory miniTemplate miniYaml [3; 5; 7; 1; 2]%nat
              loadedManifests sampleParents _ ltac:(vm_compute; reflexivity))
    as (data & bootkube & _ & _ & Hlen & Hkept).
  split; [exact Hlen|].
  apply Hkept. apply (bool_decide_unpack _). by vm_compute.
Defined.

Lemma Generate_manifest_contents_witness :
  ∃ m',
    Generate miniTemplate miniYaml [] emptyManifests sampleParents = Ret (m', None) ∧
    {| Filename := "manifests/etcd-service.yaml"; Data := "svc" |} ∈ FileList m'.
Proof.
  eexists. split; [vm_compute; reflexivity|].
  destruct (Generate_manifest_contents miniTemplate miniYaml [] emptyManifests
              sampleParents _ ltac:(vm_compute; reflexivity)) as (td & _ & Hall).
  destruct (Hall "etcd-service.yaml" (Copied (etcdServiceKubeSystem sampleParents)))
    as (f & Hf & Hin).
  { apply (list_elem_of_lookup_2 _ 11). reflexivity. }
  injection Hf as <-. exact Hin.
Defined.

Lemma Generate_panics_without_files_witness :
  Generate miniTemplate miniYaml [] emptyManifests (withoutInstallConfigFile sampleParents)
  = Panic (RuntimeError "index out of range [0] with length 0").
Proof.
  apply (Generate_panics_without_files miniTemplate miniYaml [] emptyManifests
           (withoutInstallConfigFile sampleParents)).
  reflexivity.
Defined.

(** ** What [Load] reads *)

Section LoadContents.
Context (Y : YamlLib).

(** The loop of [Load] decodes the files at the anchor path, in the order
    of the listing, into one object, and looks at no other file. *)
Lemma loadLoop_decodeAll fileList :
  ∀ cfg found,
    loadLoop Y fileList cfg found =
    match decodeAll Y (anchorFiles fileList) cfg with
    | Err e => Err (ErrWrap e "failed to unmarshal cluster-config.yaml")
    | Ok decoded =>
        Ok (decoded, found || bool_decide (anchorFiles fileList ≠ []))
    end.
Proof.
  unfold anchorFiles.
  induction fileList as [|file rest IH]; intros cfg found.
  - simpl. by rewrite orb_false_r.
  - rewrite filter_cons. cbn [loadLoop]. case_decide.
    + cbn [decodeAll].
      destruct (yaml_Unmarshal Y (Data file) cfg) as [decoded|e]; [|done].
      rewrite IH. destruct (decodeAll Y _ decoded); [|done].
      by rewrite orb_true_r.
    + apply IH.
Qed.

Lemma anchorFiles_nil_iff fileList :
  anchorFiles fileList = [] ↔ kubeSysConfigPath ∉ paths fileList.
Proof.
  unfold anchorFiles, paths. induction fileList as [|file rest IH]; simpl.
  - split; [intros _; apply not_elem_of_nil|done].
  - rewrite filter_cons, not_elem_of_cons. case_decide as Hname.
    + split; [done|]. intros [? _]. congruence.
    + rewrite IH. split; [intros ?; split; [congruence|done]|by intros [_ ?]].
Qed.

Lemma Load_by_anchor_files (f : FileFetcher) (m : Manifests) (fileList : list File) :
  f (filepath_Join manifestDir "*") = Ok fileList →
  Load Y f m =
  match decodeAll Y (anchorFiles fileList) emptyConfigurationObject with
  | Err e => (m, false, Some (ErrWrap e "failed to unmarshal cluster-config.yaml"))
  | Ok decoded =>
      if decide (anchorFiles fileList = []) then (m, false, None)
      else ({| KubeSysConfig := Some decoded; FileList := SortFiles fileList |},
            true, None)
  end.
Proof.
  intros Hf. unfold Load. rewrite Hf. case_decide as Hlen.
  - apply length_zero_iff_nil in Hlen as ->. reflexivity.
  - rewrite loadLoop_decodeAll.
    destruct (decodeAll Y (anchorFiles fileList) emptyConfigurationObject); [|done].
    simpl. case_decide as Hnil.
    + by rewrite bool_decide_eq_false_2 by (by intros ?).
    + by rewrite bool_decide_eq_true_2.
Qed.

(** X14. What [Load] returns is decided by the listed files at the
    anchor path alone: they are decoded one after the other, in the order
    of the listing, into the same object; the first failure is returned
    wrapped; with no such file [found] is false; otherwise the object
    after the last decoding is assigned together with the whole sorted
    listing, whatever the receiver held before. *)
Theorem Load_decodes_anchor_files_in_order (f : FileFetcher) (m : Manifests)
  (fileList : list File) :
  f (filepath_Join manifestDir "*") = Ok fileList →
  Load Y f m =
  match decodeAll Y (anchorFiles fileList) emptyConfigurationObject with
  | Err e => (m, false, Some (ErrWrap e "failed to unmarshal cluster-config.yaml"))
  | Ok decoded =>
      if decide (anchorFiles fileList = []) then (m, false, None)
      else ({| KubeSysConfig := Some decoded; FileList := SortFiles fileList |},
            true, None)
  end.
Proof. apply Load_by_anchor_files. Qed.

(** X15. An error of [Load] has one of two origins: the error of
    [FetchByPattern], returned as it is, or the error of decoding a
    listed file at the anchor path, returned wrapped. With an error
    [found] is false and the receiver unchanged. *)
Theorem Load_error_origin (f : FileFetcher) (m m' : Manifests) (found : bool)
  (err : Error) :
  Load Y f m = (m', found, Some err) →
  found = false ∧ m' = m ∧
  (f (filepath_Join manifestDir "*") = Err err ∨
   ∃ fileList file cfg e,
     f (filepath_Join manifestDir "*") = Ok fileList ∧
     file ∈ fileList ∧
     Filename file = kubeSysConfigPath ∧
     yaml_Unmarshal Y (Data file) cfg = Err e ∧
     err = ErrWrap e "failed to unmarshal cluster-config.yaml").
Proof.
  destruct (f (filepath_Join manifestDir "*")) as [fileList|e] eqn:Hf.
  2:{ unfold Load. rewrite Hf. intros [= <- <- <-]. auto. }
  rewrite (Load_by_anchor_files f m fileList Hf).
  destruct (decodeAll Y (anchorFiles fileList) emptyConfigurationObject)
    as [decoded|e] eqn:Hdecode.
  { case_decide; intros [=]. }
  intros [= <- <- <-]. split_and!; [done..|]. right.
  assert (∀ files cfg0,
             decodeAll Y files cfg0 = Err e →
             ∃ file cfg, file ∈ files ∧ yaml_Unmarshal Y (Data file) cfg = Err e)
    as Hfind.
  { induction files as [|file files IH]; intros cfg0; [done|]. cbn [decodeAll].
    destruct (yaml_Unmarshal Y (Data file) cfg0) as [decoded|e'] eqn:Hfile.
    - intros H. destruct (IH _ H) as (file' & cfg & Hin & Hfail).
      exists file', cfg. split; [by right|done].
    - intros [= ->]. exists file, cfg0. split; [left|done]. }
  destruct (Hfind _ _ Hdecode) as (file & cfg & Hin & Hfail).
  apply list_elem_of_filter in Hin as [Hname Hin].
  by exists fileList, file, cfg, e.
Qed.

(** X16. When [Load] reports [found = true] it keeps every file the
    fetcher listed, whatever its name, and nothing else: the file list is
    a rearrangement of the listing, of the same length, and holds a file
    at the anchor path. *)
Theorem Load_keeps_every_listed_file (f : FileFetcher) (m m' : Manifests)
  (fileList : list File) :
  f (filepath_Join manifestDir "*") = Ok fileList →
  Load Y f m = (m', true, None) →
  FileList m' ≡ₚ fileList ∧
  length (FileList m') = length fileList ∧
  kubeSysConfigPath ∈ paths (FileList m').
Proof.
  intros Hf. rewrite (Load_by_anchor_files f m fileList Hf).
  destruct (decodeAll Y (anchorFiles fileList) emptyConfigurationObject); [|done].
  case_decide as Hnil; [done|]. intros [= <-]. cbn [FileList].
  split_and!.
  - apply SortFiles_Permutation.
  - by rewrite SortFiles_Permutation.
  - unfold paths. rewrite SortFiles_Permutation. fold (paths fileList).
    destruct (decide (kubeSysConfigPath ∈ paths fileList)) as [|Hnot]; [done|].
    by apply anchorFiles_nil_iff in Hnot.
Qed.

(** In a listing of pairwise distinct paths at most one file is at the
    anchor path. *)
Lemma anchorFiles_at_most_one fileList :
  NoDup (paths fileList) →
  anchorFiles fileList = [] ∨ ∃ anchor, anchorFiles fileList = [anchor].
Proof.
  unfold anchorFiles, paths. induction fileList as [|file rest IH]; simpl.
  { by left. }
  intros Hnd. apply NoDup_cons in Hnd as [Hfile Hnd].
  rewrite filter_cons. case_decide as Hname; [|auto].
  right. exists file. f_equal.
  apply anchorFiles_nil_iff. unfold paths. by rewrite <- Hname.
Qed.

Lemma Load_listing_perm (f1 f2 : FileFetcher) (m : Manifests) (l1 l2 : list File) :
  f1 (filepath_Join manifestDir "*") = Ok l1 →
  f2 (filepath_Join manifestDir "*") = Ok l2 →
  l1 ≡ₚ l2 →
  NoDup (paths l1) →
  Load Y f1 m = Load Y f2 m.
Proof.
  intros Hf1 Hf2 Hperm Hnd.
  rewrite (Load_by_anchor_files f1 m l1 Hf1), (Load_by_anchor_files f2 m l2 Hf2).
  assert (anchorFiles l1 = anchorFiles l2) as Hanchor.
  { assert (anchorFiles l1 ≡ₚ anchorFiles l2) as Hp
        by (unfold anchorFiles; by rewrite Hperm).
    destruct (anchorFiles_at_most_one l1 Hnd) as [Hnil|[anchor Hone]].
    - rewrite Hnil in *. symmetry. by apply Permutation_nil.
    - rewrite Hone in *. by apply Permutation_singleton_l in Hp. }
  rewrite <- Hanchor.
  by rewrite (SortFiles_order_independent l1 l2 Hnd Hperm).
Qed.

(** X17. [Load] does not depend on the order in which the fetcher lists
    the files: two listings of the same files, of pairwise distinct
    paths, give the same result. *)
Theorem Load_listing_order_irrelevant (f1 f2 : FileFetcher) (m : Manifests)
  (l1 l2 : list File) :
  f1 (filepath_Join manifestDir "*") = Ok l1 →
  f2 (filepath_Join manifestDir "*") = Ok l2 →
  l1 ≡ₚ l2 →
  NoDup (paths l1) →
  Load Y f1 m = Load Y f2 m.
Proof. apply Load_listing_perm. Qed.

(** X18. Saving what [Load] loaded and loading it again changes nothing:
    [Load] on a store reports [found = true], then [Load] on the store
    written from the loaded file list, enumerated in any order, gives
    the same state. *)
Theorem Load_again_from_saved (enum1 enum2 : list nat)
  (storage : gmap string string) (m m' m0 : Manifests) :
  Load Y (storageFetcher enum1 storage) m = (m', true, None) →
  Load Y (storageFetcher enum2 (writeFiles (FileList m') ∅)) m0 = (m', true, None).
Proof.
  intros HLoad.
  set (pattern := filepath_Join manifestDir "*").
  set (listed := rangeOrder enum1 (matchingFiles pattern storage)).
  assert (NoDup (paths listed)) as Hnd.
  { unfold listed, paths. rewrite rangeOrder_Permutation. apply matchingFiles_NoDup. }
  assert (Forall (λ f, Is_true (globMatch pattern (Filename f))) listed) as Hall.
  { unfold listed. rewrite rangeOrder_Permutation. unfold matchingFiles.
    apply Forall_fmap, Forall_forall. intros entry Hentry.
    by apply list_elem_of_filter in Hentry as [? _]. }
  pose proof HLoad as HLoad'.
  rewrite (Load_by_anchor_files _ m listed eq_refl) in HLoad'.
  destruct (decodeAll Y (anchorFiles listed) emptyConfigurationObject)
    as [decoded|e] eqn:Hdecode; [|done].
  case_decide as Hnil; [done|]. injection HLoad' as <-. cbn [FileList].
  assert (NoDup (paths (SortFiles listed))) as Hnd'
      by (unfold paths; by rewrite SortFiles_Permutation).
  set (again := rangeOrder enum2 (matchingFiles pattern (writeFiles (SortFiles listed) ∅))).
  assert (again ≡ₚ listed) as Hperm.
  { unfold again. rewrite rangeOrder_Permutation, matchingFiles_written.
    - apply SortFiles_Permutation.
    - done.
    - by rewrite SortFiles_Permutation. }
  rewrite (Load_listing_perm
             (storageFetcher enum2 (writeFiles (SortFiles listed) ∅))
             (λ _, Ok listed) m0 again listed eq_refl eq_refl Hperm)
    by (unfold paths; by rewrite Hperm).
  rewrite (Load_by_anchor_files (λ _, Ok listed) m0 listed eq_refl), Hdecode.
  by case_decide.
Qed.
End LoadContents.

Lemma Load_decodes_anchor_files_in_order_witness :
  Load mergingYaml twoAnchorsFetcher emptyManifests
  = ({| KubeSysConfig :=
          Some {| Kind := "b"; Namespace := ""; Name := "";
                  ObjData := {[ "l" := "w" ]} ∪ {[ "k" := "v" ]} |};
        FileList :=
          SortFiles (oneFile "manifests/cluster-config.yaml" "1:a0:0:1:k1:v"
                       ++ oneFile "manifests/pull.json" "e30="
                       ++ oneFile "manifests/cluster-config.yaml" "1:b0:0:1:l1:w") |},
     true, None).
Proof.
  rewrite (Load_decodes_anchor_files_in_order mergingYaml twoAnchorsFetcher
             emptyManifests _ eq_refl).
  vm_compute. reflexivity.
Defined.

Lemma Load_error_origin_witness :
  ∃ m' found,
    Load miniYaml failingFetcher loadedManifests
    = (m', found, Some (ErrNew "open manifests: permission denied")) ∧
    found = false ∧ m' = loadedManifests.
Proof.
  eexists _, _. split; [reflexivity|].
  destruct (Load_error_origin miniYaml failingFetcher loadedManifests _ _ _ eq_refl)
    as (Hfound & Hsame & _).
  split; [exact Hfound|exact Hsame].
Defined.

Lemma Load_keeps_every_listed_file_witness :
  ∃ m',
    Load miniYaml (storageFetcher [1; 0]%nat sampleStorage) emptyManifests
    = (m', true, None) ∧
    length (FileList m') = 3%nat ∧
    kubeSysConfigPath ∈ paths (FileList m').
Proof.
  eexists. split; [vm_compute; reflexivity|].
  destruct (Load_keeps_every_listed_file miniYaml
              (storageFetcher [1; 0]%nat sampleStorage) emptyManifests _ _
              ltac:(vm_compute; reflexivity) ltac:(vm_compute; reflexivity))
    as (_ & Hlen & Hanchor).
  split; [exact Hlen|exact Hanchor].
Defined.

Lemma Load_listing_order_irrelevant_witness :
  Load miniYaml (storageFetcher [1; 0]%nat sampleStorage) loadedManifests
  = Load miniYaml (storageFetcher [2; 1]%nat sampleStorage) loadedManifests.
Proof.
  apply (Load_listing_order_irrelevant miniYaml _ _ loadedManifests
           (rangeOrder [1; 0]%nat
              (matchingFiles (filepath_Join manifestDir "*") sampleStorage))
           (rangeOrder [2; 1]%nat
              (matchingFiles (filepath_Join manifestDir "*") sampleStorage))).
  - reflexivity.
  - reflexivity.
  - by rewrite !rangeOrder_Permutation.
  - unfold paths. rewrite rangeOrder_Permutation. apply matchingFiles_NoDup.
Defined.

Lemma Load_again_from_saved_witness :
  ∃ m',
    Load miniYaml (storageFetcher [1; 0]%nat sampleStorage) emptyManifests
    = (m', true, None) ∧
    Load miniYaml (storageFetcher [0; 2]%nat (writeFiles (FileList m') ∅)) loadedManifests
    = (m', true, None).
Proof.
  eexists. split; [vm_compute; reflexivity|].
  apply (Load_again_from_saved miniYaml [1; 0]%nat [0; 2]%nat sampleStorage
           emptyManifests _ loadedManifests).
  vm_compute. reflexivity.
Defined.
